(** * MediaCrawler task runner: a shallow embedding of [server/task_runner.py]
      and [server/db_handler.py], and the properties of its orchestration core.

    The Python code is embedded as executable Rocq functions:
    - module globals ([config], the per-platform [store] modules, the class
      attribute [TaskExecutor._current_task]) become explicit state records
      that every function takes and returns;
    - [try]/[except]/[finally] are written with an outcome type [Ok]/[Raise];
      a raising computation still returns the state it left behind, and an
      exception says whether [except Exception] catches it;
    - the external collaborators (the Crawler, [asyncio.sleep],
      [datetime.now], the MongoDB server) are oracles: a record says what each
      call returns or raises, and every theorem quantifies over it;
    - dictionaries are [gmap]s, objects shared by reference ([TaskStatus])
      live in a heap indexed by references. *)

From Stdlib Require Import Floats.
From stdpp Require Import gmap strings list pretty functions.

Local Open Scope string_scope.
Local Open Scope list_scope.

(** ** Python values and the outcome of a call *)

Module Py.

(** The values a scraped field can hold.  [VObj] stands for any other object
    (a float, a list, a nested dict): all the code ever asks of a value is its
    truth value and its [str()]. *)
Inductive PyVal : Type :=
  | VNone
  | VBool (b : bool)
  | VInt (z : Z)
  | VStr (s : string)
  | VObj (truth : bool) (repr : string).

#[global] Instance PyVal_eq_dec : EqDecision PyVal.
Proof. solve_decision. Defined.

(** Python truth value testing. *)
Definition truthy (v : PyVal) : bool :=
  match v with
  | VNone => false
  | VBool b => b
  | VInt z => negb (Z.eqb z 0)
  | VStr s => negb (String.eqb s "")
  | VObj t _ => t
  end.

(** [a or b]: [a] when it is truthy, otherwise [b] (whatever [b] is). *)
Definition py_or (a b : PyVal) : PyVal := if truthy a then a else b.

(** [str(v)]. *)
Definition py_str (v : PyVal) : string :=
  match v with
  | VNone => "None"
  | VBool true => "True"
  | VBool false => "False"
  | VInt z => pretty z
  | VStr s => s
  | VObj _ r => r
  end.

(** [d.get(k)]: the value under [k], [None] when the key is missing. *)
Definition dict_get (d : gmap string PyVal) (k : string) : PyVal :=
  default VNone (d !! k).

(** An exception object.  The handlers of the code ask two things of it:
    whether its class derives from [Exception], which is what the clause
    [except Exception] catches, and its [str()].  [asyncio.CancelledError],
    [SystemExit] and [KeyboardInterrupt] derive from [BaseException] only. *)
Inductive Exn : Type :=
  | Exception (msg : string)
  | BaseException (msg : string).

#[global] Instance Exn_eq_dec : EqDecision Exn.
Proof. solve_decision. Defined.

(** [except Exception as e]: [str(e)] when the clause catches the exception,
    nothing when the exception passes through it. *)
Definition caught (e : Exn) : option string :=
  match e with
  | Exception msg => Some msg
  | BaseException _ => None
  end.

(** What a call does: return a value or raise an exception. *)
Inductive Outcome (A : Type) : Type :=
  | Ok (a : A)
  | Raise (e : Exn).
Arguments Ok {A} a.
Arguments Raise {A} e.

End Py.
Import Py.

(** A scraped post and a scraped comment are JSON-like dictionaries. *)
Abbreviation Post := (gmap string PyVal).
Abbreviation Comment := (gmap string PyVal).

(** Readings of [datetime.now()]. *)
Definition Time := nat.

(** ** ConfigInjector ([task_runner.py], lines 47-139) *)

Module ConfigInjector.

(** The attributes of the global [config] module that the injector reads or
    writes.  [SORT_TYPE] is optional: [None] means the module has no such
    attribute ([hasattr(config, 'SORT_TYPE')] is false). *)
Record Config : Type := {
  PLATFORM : string;
  KEYWORDS : string;
  LOGIN_TYPE : string;
  CRAWLER_TYPE : string;
  HEADLESS : bool;
  ENABLE_CDP_MODE : bool;
  ENABLE_IP_PROXY : bool;
  IP_PROXY_POOL_COUNT : Z;
  CRAWLER_MAX_NOTES_COUNT : Z;
  CRAWLER_MAX_COMMENTS_COUNT_SINGLENOTES : Z;
  ENABLE_GET_COMMENTS : bool;
  ENABLE_GET_SUB_COMMENTS : bool;
  CRAWLER_MAX_SLEEP_SEC : Z;
  SORT_TYPE : option string
}.

(** [server.models.CrawlerConfig]: the fields of the request's configuration. *)
Record CrawlerConfig : Type := {
  login_type : string;
  cookies : string;
  crawler_type : string;
  sort_type : string;
  headless : bool;
  enable_cdp_mode : bool;
  enable_proxy : bool;
  ip_proxy_pool_count : Z;
  max_scan_page : Z;
  max_notes_count : Z;
  max_comments_per_note : Z;
  enable_get_comments : bool;
  enable_get_sub_comments : bool;
  max_sleep_sec : Z
}.

(** A token of [contextvars]: an object that remembers the value the variable
    had before the [set] that made it.  [token_ref] is the identity of the
    object. *)
Record Token : Type := {
  token_ref : nat;
  old_value : option string
}.

(** The shared state the injector works on: the [config] module, the context
    variable [crawler_type_var] ([None]: never set in this context), and the
    token objects made so far, each with its flag "already used" (tokens from
    [next_token] on do not exist yet). *)
Record CfgState : Type := {
  config : Config;
  crawler_type_var : option string;
  token_used : nat → bool;
  next_token : nat
}.

(** [crawler_type_var.set(value)]: a new token, not used yet. *)
Definition var_set (value : string) (st : CfgState) : Token * CfgState :=
  ({| token_ref := next_token st; old_value := crawler_type_var st |},
   {| config := config st; crawler_type_var := Some value;
      token_used := <[next_token st := false]> (token_used st);
      next_token := S (next_token st) |}).

(** [crawler_type_var.reset(token)]: the variable gets the token's old value
    and the token is marked; a token that was used before raises
    [RuntimeError]. *)
Definition var_reset (token : Token) (st : CfgState) : Outcome unit * CfgState :=
  if token_used st (token_ref token) then
    (Raise (Exception "Token has already been used once"), st)
  else
    (Ok tt,
     {| config := config st; crawler_type_var := old_value token;
        token_used := <[token_ref token := true]> (token_used st);
        next_token := next_token st |}).

(** The [tokens] dictionary.  Its keys are fixed strings, so it is a record
    with one optional entry per key; the empty dictionary has no entry. *)
Record Tokens : Type := {
  original_platform : option string;
  original_keywords : option string;
  original_login_type : option string;
  original_crawler_type : option string;
  original_headless : option bool;
  original_enable_cdp : option bool;
  original_enable_proxy : option bool;
  original_max_notes : option Z;
  original_max_comments : option Z;
  original_enable_comments : option bool;
  original_enable_sub_comments : option bool;
  original_sleep : option Z;
  crawler_type_token : option Token;
  original_sort_type : option string
}.

(** [{}] *)
Definition empty_tokens : Tokens :=
  {| original_platform := None; original_keywords := None;
     original_login_type := None; original_crawler_type := None;
     original_headless := None; original_enable_cdp := None;
     original_enable_proxy := None; original_max_notes := None;
     original_max_comments := None; original_enable_comments := None;
     original_enable_sub_comments := None; original_sleep := None;
     crawler_type_token := None; original_sort_type := None |}.

(** ["key" in tokens] *)
Definition has_key {A} (entry : option A) : bool :=
  match entry with Some _ => true | None => false end.

(** [not tokens]: the dictionary has no key at all. *)
Definition tokens_is_empty (t : Tokens) : bool :=
  negb (has_key (original_platform t) || has_key (original_keywords t)
        || has_key (original_login_type t) || has_key (original_crawler_type t)
        || has_key (original_headless t) || has_key (original_enable_cdp t)
        || has_key (original_enable_proxy t) || has_key (original_max_notes t)
        || has_key (original_max_comments t) || has_key (original_enable_comments t)
        || has_key (original_enable_sub_comments t) || has_key (original_sleep t)
        || has_key (crawler_type_token t) || has_key (original_sort_type t)).

(** [",".join(keywords)] *)
Definition join_keywords (keywords : list string) : string :=
  String.concat "," keywords.

(** [inject_config]: read the current values, write the new ones, set the
    context variable, return the old values and the variable's token.
    [SORT_TYPE] is saved and written only when the module has it. *)
Definition inject_config (platform : string) (keywords : list string)
    (crawler_config : CrawlerConfig) (st : CfgState) : Tokens * CfgState :=
  let c := config st in
  let c' :=
    {| PLATFORM := platform;
       KEYWORDS := join_keywords keywords;
       LOGIN_TYPE := login_type crawler_config;
       CRAWLER_TYPE := crawler_type crawler_config;
       HEADLESS := headless crawler_config;
       ENABLE_CDP_MODE := enable_cdp_mode crawler_config;
       ENABLE_IP_PROXY := enable_proxy crawler_config;
       IP_PROXY_POOL_COUNT := ip_proxy_pool_count crawler_config;
       CRAWLER_MAX_NOTES_COUNT := max_notes_count crawler_config;
       CRAWLER_MAX_COMMENTS_COUNT_SINGLENOTES := max_comments_per_note crawler_config;
       ENABLE_GET_COMMENTS := enable_get_comments crawler_config;
       ENABLE_GET_SUB_COMMENTS := enable_get_sub_comments crawler_config;
       CRAWLER_MAX_SLEEP_SEC := max_sleep_sec crawler_config;
       SORT_TYPE := match SORT_TYPE c with
                    | Some _ => Some (sort_type crawler_config)
                    | None => None
                    end |} in
  let '(token, st') :=
    var_set (crawler_type crawler_config)
      {| config := c'; crawler_type_var := crawler_type_var st;
         token_used := token_used st; next_token := next_token st |} in
  ({| original_platform := Some (PLATFORM c);
      original_keywords := Some (KEYWORDS c);
      original_login_type := Some (LOGIN_TYPE c);
      original_crawler_type := Some (CRAWLER_TYPE c);
      original_headless := Some (HEADLESS c);
      original_enable_cdp := Some (ENABLE_CDP_MODE c);
      original_enable_proxy := Some (ENABLE_IP_PROXY c);
      original_max_notes := Some (CRAWLER_MAX_NOTES_COUNT c);
      original_max_comments := Some (CRAWLER_MAX_COMMENTS_COUNT_SINGLENOTES c);
      original_enable_comments := Some (ENABLE_GET_COMMENTS c);
      original_enable_sub_comments := Some (ENABLE_GET_SUB_COMMENTS c);
      original_sleep := Some (CRAWLER_MAX_SLEEP_SEC c);
      crawler_type_token := Some token;
      original_sort_type := SORT_TYPE c |},
   st').

(** [restore_config]: nothing for the empty dictionary; otherwise every
    attribute is written from its entry, or from the fallback of
    [tokens.get(key, fallback)] when the entry is missing, and then the
    context variable is reset with its token, which raises when the token was
    used before.  [IP_PROXY_POOL_COUNT] is not written. *)
Definition restore_config (tokens : Tokens) (st : CfgState)
    : Outcome unit * CfgState :=
  if tokens_is_empty tokens then (Ok tt, st)
  else
    let c := config st in
    let st' :=
      {| config :=
           {| PLATFORM := default "xhs" (original_platform tokens);
              KEYWORDS := default "" (original_keywords tokens);
              LOGIN_TYPE := default "qrcode" (original_login_type tokens);
              CRAWLER_TYPE := default "search" (original_crawler_type tokens);
              HEADLESS := default false (original_headless tokens);
              ENABLE_CDP_MODE := default true (original_enable_cdp tokens);
              ENABLE_IP_PROXY := default false (original_enable_proxy tokens);
              IP_PROXY_POOL_COUNT := IP_PROXY_POOL_COUNT c;
              CRAWLER_MAX_NOTES_COUNT := default 15%Z (original_max_notes tokens);
              CRAWLER_MAX_COMMENTS_COUNT_SINGLENOTES :=
                default 10%Z (original_max_comments tokens);
              ENABLE_GET_COMMENTS := default true (original_enable_comments tokens);
              ENABLE_GET_SUB_COMMENTS :=
                default false (original_enable_sub_comments tokens);
              CRAWLER_MAX_SLEEP_SEC := default 2%Z (original_sleep tokens);
              SORT_TYPE := match original_sort_type tokens with
                           | Some s => Some s
                           | None => SORT_TYPE c
                           end |};
         crawler_type_var := crawler_type_var st;
         token_used := token_used st; next_token := next_token st |} in
    match crawler_type_token tokens with
    | Some token => var_reset token st'
    | None => (Ok tt, st')
    end.

(** The fields the transaction tracks, as one tuple. *)
Definition tracked (c : Config) :=
  (PLATFORM c, KEYWORDS c, LOGIN_TYPE c, CRAWLER_TYPE c, HEADLESS c,
   ENABLE_CDP_MODE c, ENABLE_IP_PROXY c, CRAWLER_MAX_NOTES_COUNT c,
   CRAWLER_MAX_COMMENTS_COUNT_SINGLENOTES c, ENABLE_GET_COMMENTS c,
   ENABLE_GET_SUB_COMMENTS c, CRAWLER_MAX_SLEEP_SEC c, SORT_TYPE c).

End ConfigInjector.
Import ConfigInjector.

(** ** The trace of observable actions

    [utils.logger] and the calls to the outside world leave no value behind;
    they are recorded as events, in the order they happen.  Only the logger
    lines the development observes are kept, each with the source line that
    writes it. *)

Inductive Event : Type :=
  | BrowserClose (platform : string)                    (* task_runner.py:180 *)
  | LogCrawlCompleted (platform : string) (posts : nat) (* task_runner.py:184 *)
  | LogCrawlFailed (platform msg : string)              (* task_runner.py:194 *)
  | LogRoundStart (round_idx total : nat)               (* task_runner.py:299 *)
  | LogProcessing (platform : string)                   (* task_runner.py:304 *)
  | LogSaved (platform : string) (saved : nat)          (* task_runner.py:337 *)
  | LogPlatformFailed (platform : string) (error : option string) (* :339 *)
  | LogPlatformError (platform msg : string)            (* task_runner.py:351 *)
  | LogTaskCompleted (task : string)                    (* task_runner.py:367 *)
  | LogTaskFailed (task msg : string)                   (* task_runner.py:373 *)
  | LogNoPostId (platform : string)                     (* db_handler.py:56 *)
  | LogSaveFailed (platform msg : string)               (* db_handler.py:86 *)
  | LogBatchSave (platform : string) (saved total : nat) (* db_handler.py:115 *)
  | LogIndexes (platform : string) (error : option string). (* :149, :151 *)

#[global] Instance Event_eq_dec : EqDecision Event.
Proof. solve_decision. Defined.

(** ** CrawlerWrapper ([task_runner.py], lines 142-249) *)

Module CrawlerWrapper.

(** The seven store modules that [_setup_data_capture] imports. *)
Inductive StoreName : Type :=
  | xhs_store | dy_store | bili_store | wb_store | ks_store | tieba_store
  | zhihu_store.

#[global] Instance StoreName_eq_dec : EqDecision StoreName.
Proof. solve_decision. Defined.

(** What a store module's [save_data] attribute is bound to: the function the
    module came with, or the bound method [_capture_save_data] of the wrapper
    instance with the given identity. *)
Inductive Sink : Type :=
  | OriginalSave
  | CaptureSave (wrapper : nat).

#[global] Instance Sink_eq_dec : EqDecision Sink.
Proof. solve_decision. Defined.

(** The [save_data] attribute of every store module; [None]: the module has
    no such attribute. *)
Definition Stores : Type := StoreName → option Sink.

(** The dictionary literal [store_modules] of [_setup_data_capture]. *)
Definition store_modules (platform : string) : option StoreName :=
  if decide (platform = "xhs") then Some xhs_store
  else if decide (platform = "dy") then Some dy_store
  else if decide (platform = "bili") then Some bili_store
  else if decide (platform = "wb") then Some wb_store
  else if decide (platform = "ks") then Some ks_store
  else if decide (platform = "tieba") then Some tieba_store
  else if decide (platform = "zhihu") then Some zhihu_store
  else None.

(** [store_module.save_data = f] *)
Definition set_save_data (m : StoreName) (f : Sink) (stores : Stores) : Stores :=
  <[m := Some f]> stores.

(** A wrapper instance.  [wid] is the identity of the object (which instance
    a bound method belongs to). *)
Record Wrapper : Type := {
  wid : nat;
  platform : string;
  captured_posts : list Post;
  captured_comments : gmap string (list Comment);
  original_methods : gmap string Sink
}.

(** [CrawlerWrapper(platform)] *)
Definition new_wrapper (id : nat) (platform : string) : Wrapper :=
  {| wid := id; platform := platform; captured_posts := [];
     captured_comments := ∅; original_methods := ∅ |}.

(** The identifier expression, the same text at [task_runner.py:243],
    [db_handler.py:54] and [db_handler.py:101]:
    [d.get("post_id") or d.get("note_id") or d.get("aweme_id") or d.get("id")]. *)
Definition derive_post_id (post_data : Post) : PyVal :=
  py_or (py_or (py_or (dict_get post_data "post_id") (dict_get post_data "note_id"))
               (dict_get post_data "aweme_id"))
        (dict_get post_data "id").

(** [_capture_save_data] *)
Definition _capture_save_data (self : Wrapper) (post_data : Post)
    (comments_data : list Comment) : Wrapper :=
  let post_id := derive_post_id post_data in
  if truthy post_id then
    {| wid := wid self; platform := platform self;
       captured_posts := captured_posts self ++ [post_data];
       captured_comments := <[py_str post_id := comments_data]> (captured_comments self);
       original_methods := original_methods self |}
  else self.

(** [_setup_data_capture]: patch the platform's store module when the platform
    is one of the seven and the module has a [save_data]; remember what was
    there.  Nothing in the class reads [original_methods] again. *)
Definition _setup_data_capture (self : Wrapper) (stores : Stores) : Wrapper * Stores :=
  let patched :=
    match store_modules (platform self) with
    | Some store_module =>
        match stores store_module with
        | Some original =>
            Some (original, set_save_data store_module (CaptureSave (wid self)) stores)
        | None => None
        end
    | None => None
    end in
  let original_methods' :=
    match patched with
    | Some (original, _) => {["save_data" := original]}
    | None => ∅
    end in
  ({| wid := wid self; platform := platform self;
      captured_posts := captured_posts self;
      captured_comments := captured_comments self;
      original_methods := original_methods' |},
   match patched with Some (_, stores') => stores' | None => stores end).

(** One run of the external Crawler, as the wrapper sees it: what
    [CrawlerFactory.create_crawler] raises, if anything; the calls
    [save_data(post, comments)] that [start()] makes on the platform's store
    module; what [start()] then raises, if anything; whether the handle has a
    [browser_context] and, if so, what closing it raises. *)
Record CrawlerRun : Type := {
  create_raises : option Exn;
  saves : list (Post * list Comment);
  start_raises : option Exn;
  browser_context : option (option Exn)
}.

(** A call of the crawler to its store module's [save_data]: it reaches this
    wrapper when the attribute is bound to this wrapper's capture method. *)
Definition crawler_save (stores : Stores) (self : Wrapper)
    (call : Post * list Comment) : Wrapper :=
  match store_modules (platform self) ≫= stores with
  | Some (CaptureSave w) =>
      if decide (w = wid self) then _capture_save_data self call.1 call.2 else self
  | _ => self
  end.

(** The dictionary [run_with_capture] returns. *)
Record CaptureResult : Type := {
  posts : list Post;
  comments : gmap string (list Comment);
  success : bool;
  error : option string
}.

(** The [try] block of [run_with_capture] (lines 165-191).  The bare
    [except:] of line 181 swallows whatever closing the browser raises. *)
Definition run_with_capture_try (run : CrawlerRun) (self : Wrapper) (stores : Stores)
    : Outcome CaptureResult * Wrapper * Stores * list Event :=
  match create_raises run with
  | Some e => (Raise e, self, stores, [])
  | None =>
      let '(self1, stores1) := _setup_data_capture self stores in
      let self2 := foldl (crawler_save stores1) self1 (saves run) in
      match start_raises run with
      | Some e => (Raise e, self2, stores1, [])
      | None =>
          let closing :=
            match browser_context run with
            | Some _ => [BrowserClose (platform self)]
            | None => []
            end in
          (Ok {| posts := captured_posts self2; comments := captured_comments self2;
                 success := true; error := None |},
           self2, stores1,
           closing ++ [LogCrawlCompleted (platform self) (length (captured_posts self2))])
      end
  end.

(** [run_with_capture]: the [try] block, and the handler of line 193, which
    is [except Exception]: an exception of another class leaves the method. *)
Definition run_with_capture (run : CrawlerRun) (self : Wrapper) (stores : Stores)
    : Outcome CaptureResult * Wrapper * Stores * list Event :=
  match run_with_capture_try run self stores with
  | (Ok result, self', stores', events) => (Ok result, self', stores', events)
  | (Raise e, self', stores', events) =>
      match caught e with
      | Some msg =>
          (Ok {| posts := []; comments := ∅; success := false; error := Some msg |},
           self', stores', events ++ [LogCrawlFailed (platform self) msg])
      | None => (Raise e, self', stores', events)
      end
  end.

End CrawlerWrapper.
Import CrawlerWrapper.

(** ** The process clock

    [datetime.now()] is a read of the outside world: the [n]-th call returns
    [reading n], whatever that is. *)

Record Clock : Type := {
  reading : nat → Time;
  ticks : nat
}.

Definition datetime_now (clk : Clock) : Time * Clock :=
  (reading clk (ticks clk), {| reading := reading clk; ticks := S (ticks clk) |}).

(** ** MediaCrawlerDBHandler ([db_handler.py]) *)

Module DBHandler.

(** The values of the [metadata] dictionary the task runner passes (lines
    323-328): a string, an integer, a keyword list or a timestamp. *)
Inductive MetaVal : Type :=
  | MStr (s : string)
  | MInt (n : nat)
  | MKeywords (ks : list string)
  | MTime (t : Time).

#[global] Instance MetaVal_eq_dec : EqDecision MetaVal.
Proof. solve_decision. Defined.

Abbreviation Metadata := (gmap string MetaVal).

(** The values of a stored document's fields. *)
Inductive DocVal : Type :=
  | DStr (s : string)
  | DInt (n : nat)
  | DPost (p : Post)
  | DComments (cs : list Comment)
  | DMeta (m : Metadata)
  | DTime (t : Time).

#[global] Instance DocVal_eq_dec : EqDecision DocVal.
Proof. solve_decision. Defined.

(** A MongoDB document: field name to value. *)
Abbreviation Doc := (gmap string DocVal).

(** The database behind [MongoDBConnection]: its collections by name (a
    collection that was never written is empty); the indexes that exist, as
    pairs of a collection name and a key; whether the connection fails
    ([Some msg]: [get_db] raises an [Exception] with this message); and the
    server as the driver meets it: [server_raises n] is what the [n]-th call
    that goes to the server raises, if anything (a network error, a
    cancellation while the call is awaited), [round_trips] counts the calls
    made so far. *)
Record DbState : Type := {
  collections : gmap string (list Doc);
  indexed : gset (string * string);
  fault : option string;
  server_raises : nat → option Exn;
  round_trips : nat
}.

(** [get_collection]: the name [{platform}_media_crawler]. *)
Definition collection_name (platform : string) : string :=
  platform +:+ "_media_crawler".

Definition get_collection (platform : string) (db : DbState) : Outcome (list Doc) :=
  match fault db with
  | Some msg => Raise (Exception msg)
  | None => Ok (default [] (collections db !! collection_name platform))
  end.

(** The query [{"post_id": id}]. *)
Definition matches (id : string) (d : Doc) : bool :=
  bool_decide (d !! "post_id" = Some (DStr id)).

(** What [update_one(query, {"$set": document})] does to the first document
    that matches: the fields of [document] are written over it, its other
    fields stay.  [None] when no document matches. *)
Fixpoint update_first (id : string) (document : Doc) (docs : list Doc)
    : option (list Doc) :=
  match docs with
  | [] => None
  | d :: rest =>
      if matches id d then Some ((document ∪ d) :: rest)
      else (d ::.) <$> update_first id document rest
  end.

(** What [update_one(query, {"$set": document}, upsert=True)] does to a
    collection: update the first match, or insert the query's field with the
    document's fields.  The boolean is [result.upserted_id]: whether a
    document was inserted. *)
Definition update_one (id : string) (document : Doc) (docs : list Doc)
    : list Doc * bool :=
  match update_first id document docs with
  | Some docs' => (docs', false)
  | None => (docs ++ [document ∪ {["post_id" := DStr id]}], true)
  end.

(** The driver encodes a document as BSON before it sends it.  An integer
    fits when it is in the signed 64-bit range; [VObj] stands for values the
    encoder accepts. *)
Definition int64 (z : Z) : bool := ((- 2 ^ 63 <=? z) && (z <? 2 ^ 63))%Z.

Definition encodable_value (v : PyVal) : bool :=
  match v with
  | VInt z => int64 z
  | _ => true
  end.

Definition encodable_dict (d : gmap string PyVal) : bool :=
  forallb (λ kv, encodable_value kv.2) (map_to_list d).

Definition encodable_field (v : DocVal) : bool :=
  match v with
  | DPost p => encodable_dict p
  | DComments cs => forallb encodable_dict cs
  | _ => true
  end.

Definition encodable (document : Doc) : bool :=
  forallb (λ kv, encodable_field kv.2) (map_to_list document).

(** A call of the driver that goes to the server: it returns, or raises what
    the server has for it. *)
Definition round_trip (db : DbState) : Outcome unit * DbState :=
  let db' :=
    {| collections := collections db; indexed := indexed db; fault := fault db;
       server_raises := server_raises db; round_trips := S (round_trips db) |} in
  match server_raises db (round_trips db) with
  | Some e => (Raise e, db')
  | None => (Ok tt, db')
  end.

Definition set_collection (name : string) (docs : list Doc) (db : DbState) : DbState :=
  {| collections := <[name := docs]> (collections db); indexed := indexed db;
     fault := fault db; server_raises := server_raises db;
     round_trips := round_trips db |}.

(** [await collection.update_one(query, {"$set": document}, upsert=True)] on
    the collection [name]: the encoder raises [OverflowError] for an integer
    of more than 8 bytes, before anything is sent; a call that the server
    fails changes nothing. *)
Definition collection_update_one (name id : string) (document : Doc) (db : DbState)
    : Outcome bool * DbState :=
  if encodable document then
    match round_trip db with
    | (Raise e, db') => (Raise e, db')
    | (Ok _, db') =>
        let '(docs, upserted) :=
          update_one id document (default [] (collections db' !! name)) in
        (Ok upserted, set_collection name docs db')
    end
  else (Raise (Exception "MongoDB can only handle up to 8-byte ints"), db).

(** The dictionary [document] of line 62; [metadata or {}] is the empty
    dictionary for [None] (and for an empty dictionary). *)
Definition build_document (post_id : PyVal) (post_data : Post)
    (comments : list Comment) (metadata : option Metadata) (now : Time)
    : Doc :=
  <["post_id" := DStr (py_str post_id)]>
  (<["post_detail" := DPost post_data]>
  (<["comments" := DComments comments]>
  (<["comment_count" := DInt (length comments)]>
  (<["crawl_metadata" := DMeta (default ∅ metadata)]>
  (<["updated_at" := DTime now]> ∅))))).

(** The [try] block of [save_post_with_comments] (lines 50-83). *)
Definition save_post_with_comments_try (platform : string) (post_data : Post)
    (comments : list Comment) (metadata : option Metadata)
    (clk : Clock) (db : DbState) : Outcome bool * Clock * DbState * list Event :=
  match get_collection platform db with
  | Raise e => (Raise e, clk, db, [])
  | Ok _ =>
      let post_id := derive_post_id post_data in
      if negb (truthy post_id) then (Ok false, clk, db, [LogNoPostId platform])
      else
        let '(now, clk') := datetime_now clk in
        let document := build_document post_id post_data comments metadata now in
        match collection_update_one (collection_name platform) (py_str post_id)
                document db with
        | (Raise e, db') => (Raise e, clk', db', [])
        | (Ok _, db') => (Ok true, clk', db', [])
        end
  end.

(** [save_post_with_comments]: the [try] block, and the handler of line 85,
    which turns an [Exception] into [False]. *)
Definition save_post_with_comments (platform : string) (post_data : Post)
    (comments : list Comment) (metadata : option Metadata)
    (clk : Clock) (db : DbState) : Outcome bool * Clock * DbState * list Event :=
  match save_post_with_comments_try platform post_data comments metadata clk db with
  | (Ok b, clk', db', events) => (Ok b, clk', db', events)
  | (Raise e, clk', db', events) =>
      match caught e with
      | Some msg => (Ok false, clk', db', events ++ [LogSaveFailed platform msg])
      | None => (Raise e, clk', db', events)
      end
  end.

(** The loop of [save_batch] (lines 100-113), with [success_count] and the
    state as accumulators; an exception that leaves a save leaves the loop. *)
Fixpoint save_batch_loop (platform : string) (posts_data : list Post)
    (comments_dict : gmap string (list Comment)) (metadata : option Metadata)
    (success_count : nat) (clk : Clock) (db : DbState) (events : list Event)
    : Outcome nat * Clock * DbState * list Event :=
  match posts_data with
  | [] => (Ok success_count, clk, db, events)
  | post_data :: rest =>
      let post_id := derive_post_id post_data in
      if negb (truthy post_id) then
        save_batch_loop platform rest comments_dict metadata success_count clk db events
      else
        let comments := default [] (comments_dict !! py_str post_id) in
        match save_post_with_comments platform post_data comments metadata clk db with
        | (Ok ok, clk', db', evs) =>
            save_batch_loop platform rest comments_dict metadata
              (if ok then S success_count else success_count) clk' db' (events ++ evs)
        | (Raise e, clk', db', evs) => (Raise e, clk', db', events ++ evs)
        end
  end.

(** [save_batch] *)
Definition save_batch (platform : string) (posts_data : list Post)
    (comments_dict : gmap string (list Comment)) (metadata : option Metadata)
    (clk : Clock) (db : DbState) : Outcome nat * Clock * DbState * list Event :=
  match save_batch_loop platform posts_data comments_dict metadata 0 clk db [] with
  | (Ok success_count, clk', db', events) =>
      (Ok success_count, clk', db',
       events ++ [LogBatchSave platform success_count (length posts_data)])
  | (Raise e, clk', db', events) => (Raise e, clk', db', events)
  end.

(** [await collection.create_index([(key, ...)], unique=...)] on the
    collection [name]: the server refuses to build a unique index over a
    collection in which two documents agree on the key (error E11000). *)
Definition create_index (name key : string) (unique : bool) (db : DbState)
    : Outcome unit * DbState :=
  match round_trip db with
  | (Raise e, db') => (Raise e, db')
  | (Ok _, db') =>
      if unique && negb (bool_decide
                           (NoDup ((λ d : Doc, d !! key)
                                     <$> default [] (collections db' !! name))))
      then (Raise (Exception "E11000 duplicate key error"), db')
      else (Ok tt,
            {| collections := collections db';
               indexed := {[(name, key)]} ∪ indexed db';
               fault := fault db'; server_raises := server_raises db';
               round_trips := round_trips db' |})
  end.

(** The [try] block of [create_indexes] (lines 145-149). *)
Definition create_indexes_try (platform : string) (db : DbState)
    : Outcome unit * DbState :=
  match get_collection platform db with
  | Raise e => (Raise e, db)
  | Ok _ =>
      let name := collection_name platform in
      match create_index name "post_id" true db with
      | (Raise e, db1) => (Raise e, db1)
      | (Ok _, db1) =>
          match create_index name "updated_at" false db1 with
          | (Raise e, db2) => (Raise e, db2)
          | (Ok _, db2) => create_index name "crawl_metadata.task_id" false db2
          end
      end
  end.

(** [create_indexes]: an [Exception] is only logged. *)
Definition create_indexes (platform : string) (db : DbState)
    : Outcome unit * DbState * list Event :=
  match create_indexes_try platform db with
  | (Ok _, db') => (Ok tt, db', [LogIndexes platform None])
  | (Raise e, db') =>
      match caught e with
      | Some msg => (Ok tt, db', [LogIndexes platform (Some msg)])
      | None => (Raise e, db', [])
      end
  end.

(** The documents of a platform's collection that carry a given [post_id]. *)
Definition documents_with_id (platform id : string) (db : DbState) : list Doc :=
  filter (λ d, matches id d = true)
         (default [] (collections db !! collection_name platform)).

End DBHandler.
Import DBHandler.

(** ** TaskExecutor ([task_runner.py], lines 20-44 and 252-390) *)

Module TaskExecutor.

(** The four values of [TaskStatus.status]. *)
Inductive Status : Type := pending | running | completed | failed.

#[global] Instance Status_eq_dec : EqDecision Status.
Proof. solve_decision. Defined.

Record TaskStatus : Type := {
  task_id : string;
  total_rounds : nat;
  current_round : nat;
  current_platform : option string;
  status : Status;
  progress : float;
  error_message : option string;
  start_time : option Time;
  end_time : option Time
}.

(** [TaskStatus(task_id, total_rounds)] *)
Definition new_task_status (id : string) (rounds : nat) : TaskStatus :=
  {| task_id := id; total_rounds := rounds; current_round := 0;
     current_platform := None; status := pending; progress := 0%float;
     error_message := None; start_time := None; end_time := None |}.

(** [server.models.CrawlRequest] *)
Record CrawlRequest : Type := {
  platforms : list string;
  keyword_groups : list (list string);
  request_config : CrawlerConfig;
  request_task_id : option string;
  task_name : option string
}.

(** The executor's class attributes.  [TaskStatus] objects are shared by
    reference between the slot and the background unit that owns them, so they
    live in a heap: [tasks r] is the object behind reference [r], references
    from [next_ref] on are not allocated yet.  [_current_task] holds a
    reference or [None].  [spawned] lists the background units handed to
    [asyncio.create_task]. *)
Record ExecState : Type := {
  tasks : nat → TaskStatus;
  next_ref : nat;
  _current_task : option nat;
  spawned : list (CrawlRequest * nat)
}.

(** The tracked task object, when the slot holds one. *)
Definition tracked_task (ex : ExecState) : option TaskStatus :=
  tasks ex <$> _current_task ex.

(** [cls._current_task and cls._current_task.status == "running"], which is
    also [is_running()]. *)
Definition is_running (ex : ExecState) : bool :=
  match tracked_task ex with
  | Some t => bool_decide (status t = running)
  | None => false
  end.

(** [request.task_id or str(uuid.uuid4())]; [fresh_uuid] is what [uuid4]
    would return. *)
Definition choose_task_id (supplied : option string) (fresh_uuid : string) : string :=
  match supplied with
  | Some s => if String.eqb s "" then fresh_uuid else s
  | None => fresh_uuid
  end.

(** [execute_crawl_task].  The body of [async with cls._lock] has no
    suspension point, so it runs as one step. *)
Definition execute_crawl_task (fresh_uuid : string) (request : CrawlRequest)
    (ex : ExecState) : Outcome string * ExecState :=
  if is_running ex then
    (Raise (Exception "Task queue is full. Another task is currently running."), ex)
  else
    let id := choose_task_id (request_task_id request) fresh_uuid in
    let rounds := length (keyword_groups request) in
    let task_status := next_ref ex in
    (Ok id,
     {| tasks := <[task_status := new_task_status id rounds]> (tasks ex);
        next_ref := S (next_ref ex);
        _current_task := Some task_status;
        spawned := spawned ex ++ [(request, task_status)] |}).

(** [get_task_status] *)
Definition get_task_status (id : string) (ex : ExecState) : option TaskStatus :=
  match tracked_task ex with
  | Some t => if decide (task_id t = id) then Some t else None
  | None => None
  end.

(** *** The state a background unit runs in *)

Record World : Type := {
  cfg : CfgState;
  stores : Stores;
  next_wrapper : nat;
  db : DbState;
  clock : Clock;
  exec : ExecState;
  log : list Event;
  crawls : nat;
  sleeps : nat
}.

(** The outside world of one background unit: what the [n]-th Crawler run
    does, given the configuration it finds; what the [n]-th sleep between
    platforms (line 348) raises, if anything; what the sleep after round [r]
    (line 361) raises, if anything (a sleeping unit that is cancelled gets
    [asyncio.CancelledError] there). *)
Record Env : Type := {
  crawler : nat → CfgState → CrawlerRun;
  platform_sleep : nat → option Exn;
  round_sleep : nat → option Exn
}.

(** Computations of the background unit: state passing with exceptions. *)
Definition M (A : Type) : Type := World → Outcome A * World.

#[global] Instance M_ret : MRet M := λ A a w, (Ok a, w).
#[global] Instance M_bind : MBind M := λ A B k m w,
  match m w with
  | (Ok a, w') => k a w'
  | (Raise e, w') => (Raise e, w')
  end.

(** [try: m except Exception as e: handler(str(e))]: an exception whose
    class does not derive from [Exception] passes through. *)
Definition try_except {A} (m : M A) (handler : string → M A) : M A := λ w,
  match m w with
  | (Ok a, w') => (Ok a, w')
  | (Raise e, w') =>
      match caught e with
      | Some msg => handler msg w'
      | None => (Raise e, w')
      end
  end.

Definition raise_ {A} (e : Exn) : M A := λ w, (Raise e, w).

Definition with_cfg (f : CfgState → CfgState) (w : World) : World :=
  {| cfg := f (cfg w); stores := stores w; next_wrapper := next_wrapper w;
     db := db w; clock := clock w; exec := exec w; log := log w;
     crawls := crawls w; sleeps := sleeps w |}.

Definition with_exec (f : ExecState → ExecState) (w : World) : World :=
  {| cfg := cfg w; stores := stores w; next_wrapper := next_wrapper w;
     db := db w; clock := clock w; exec := f (exec w); log := log w;
     crawls := crawls w; sleeps := sleeps w |}.

Definition with_log (f : list Event → list Event) (w : World) : World :=
  {| cfg := cfg w; stores := stores w; next_wrapper := next_wrapper w;
     db := db w; clock := clock w; exec := exec w; log := f (log w);
     crawls := crawls w; sleeps := sleeps w |}.

Definition with_store (clk : Clock) (d : DbState) (w : World) : World :=
  {| cfg := cfg w; stores := stores w; next_wrapper := next_wrapper w;
     db := d; clock := clk; exec := exec w; log := log w;
     crawls := crawls w; sleeps := sleeps w |}.

(** [utils.logger.…] *)
Definition emit (events : list Event) : M unit := λ w,
  (Ok tt, with_log (λ l, l ++ events) w).

(** An assignment to an attribute of the task object behind the reference
    [task_status]: the object changes in place, for every holder of the
    reference. *)
Definition assign (task_status : nat) (f : TaskStatus → TaskStatus)
    (ex : ExecState) : ExecState :=
  {| tasks := alter f task_status (tasks ex); next_ref := next_ref ex;
     _current_task := _current_task ex; spawned := spawned ex |}.

Definition update_task (task_status : nat) (f : TaskStatus → TaskStatus) : M unit := λ w,
  (Ok tt, with_exec (assign task_status f) w).

Definition set_status (s : Status) (t : TaskStatus) : TaskStatus :=
  {| task_id := task_id t; total_rounds := total_rounds t;
     current_round := current_round t; current_platform := current_platform t;
     status := s; progress := progress t; error_message := error_message t;
     start_time := start_time t; end_time := end_time t |}.

Definition set_start_time (x : Time) (t : TaskStatus) : TaskStatus :=
  {| task_id := task_id t; total_rounds := total_rounds t;
     current_round := current_round t; current_platform := current_platform t;
     status := status t; progress := progress t; error_message := error_message t;
     start_time := Some x; end_time := end_time t |}.

Definition set_end_time (x : Time) (t : TaskStatus) : TaskStatus :=
  {| task_id := task_id t; total_rounds := total_rounds t;
     current_round := current_round t; current_platform := current_platform t;
     status := status t; progress := progress t; error_message := error_message t;
     start_time := start_time t; end_time := Some x |}.

Definition set_current_round (r : nat) (t : TaskStatus) : TaskStatus :=
  {| task_id := task_id t; total_rounds := total_rounds t;
     current_round := r; current_platform := current_platform t;
     status := status t; progress := progress t; error_message := error_message t;
     start_time := start_time t; end_time := end_time t |}.

Definition set_current_platform (p : string) (t : TaskStatus) : TaskStatus :=
  {| task_id := task_id t; total_rounds := total_rounds t;
     current_round := current_round t; current_platform := Some p;
     status := status t; progress := progress t; error_message := error_message t;
     start_time := start_time t; end_time := end_time t |}.

Definition set_progress (x : float) (t : TaskStatus) : TaskStatus :=
  {| task_id := task_id t; total_rounds := total_rounds t;
     current_round := current_round t; current_platform := current_platform t;
     status := status t; progress := x; error_message := error_message t;
     start_time := start_time t; end_time := end_time t |}.

Definition set_error_message (msg : string) (t : TaskStatus) : TaskStatus :=
  {| task_id := task_id t; total_rounds := total_rounds t;
     current_round := current_round t; current_platform := current_platform t;
     status := status t; progress := progress t; error_message := Some msg;
     start_time := start_time t; end_time := end_time t |}.

(** *** The calls of the background unit, on the shared state *)

(** [tokens = ConfigInjector.inject_config(...)] *)
Definition do_inject (platform : string) (keywords : list string)
    (crawler_config : CrawlerConfig) : M Tokens := λ w,
  let '(tokens, c) := inject_config platform keywords crawler_config (cfg w) in
  (Ok tokens, with_cfg (λ _, c) w).

(** [ConfigInjector.restore_config(tokens)] *)
Definition do_restore (tokens : Tokens) : M unit := λ w,
  let '(outcome, c) := restore_config tokens (cfg w) in
  (outcome, with_cfg (λ _, c) w).

(** [wrapper = CrawlerWrapper(platform)]: a new object. *)
Definition make_wrapper (platform : string) : M Wrapper := λ w,
  (Ok (new_wrapper (next_wrapper w) platform),
   {| cfg := cfg w; stores := stores w; next_wrapper := S (next_wrapper w);
      db := db w; clock := clock w; exec := exec w; log := log w;
      crawls := crawls w; sleeps := sleeps w |}).

(** [result = await wrapper.run_with_capture(keyword_group)]: the Crawler that
    runs is the next one of the environment, under the current configuration. *)
Definition do_run_with_capture (E : Env) (wrapper : Wrapper) : M CaptureResult := λ w,
  let '(outcome, _, stores', events) :=
    run_with_capture (crawler E (crawls w) (cfg w)) wrapper (stores w) in
  (outcome,
   {| cfg := cfg w; stores := stores'; next_wrapper := next_wrapper w;
      db := db w; clock := clock w; exec := exec w; log := log w ++ events;
      crawls := S (crawls w); sleeps := sleeps w |}).

(** [datetime.now()] *)
Definition now : M Time := λ w,
  let '(t, clk) := datetime_now (clock w) in (Ok t, with_store clk (db w) w).

(** [await db_handler.save_batch(...)] *)
Definition do_save_batch (platform : string) (posts_data : list Post)
    (comments_dict : gmap string (list Comment)) (metadata : option Metadata)
    : M nat := λ w,
  let '(outcome, clk, d, events) :=
    save_batch platform posts_data comments_dict metadata (clock w) (db w) in
  (outcome, with_log (λ l, l ++ events) (with_store clk d w)).

(** [await db_handler.create_indexes(platform)] *)
Definition do_create_indexes (platform : string) : M unit := λ w,
  let '(outcome, d, events) := create_indexes platform (db w) in
  (outcome, with_log (λ l, l ++ events) (with_store (clock w) d w)).

(** [await asyncio.sleep(...)] of line 348. *)
Definition sleep_between_platforms (E : Env) : M unit := λ w,
  let w' :=
    {| cfg := cfg w; stores := stores w; next_wrapper := next_wrapper w;
       db := db w; clock := clock w; exec := exec w; log := log w;
       crawls := crawls w; sleeps := S (sleeps w) |} in
  match platform_sleep E (sleeps w) with
  | Some e => (Raise e, w')
  | None => (Ok tt, w')
  end.

(** [await asyncio.sleep(...)] of line 361. *)
Definition sleep_between_rounds (E : Env) (round_idx : nat) : M unit := λ w,
  match round_sleep E round_idx with
  | Some e => (Raise e, w)
  | None => (Ok tt, w)
  end.

(** A read of the task object. *)
Definition read_task (task_status : nat) : M TaskStatus := λ w,
  (Ok (tasks (exec w) task_status), w).

(** The [metadata] dictionary of lines 323-328. *)
Definition build_metadata (id : string) (round_idx : nat)
    (keyword_group : list string) (crawl_time : Time) : Metadata :=
  <["task_id" := MStr id]>
  (<["round" := MInt round_idx]>
  (<["keywords" := MKeywords keyword_group]>
  (<["crawl_time" := MTime crawl_time]> ∅))).

(** *** The per-platform step (lines 303-352) *)

(** The rest of the [try] block once the configuration is restored, lines
    321-348: save or log the failure, create the indexes, sleep unless this
    platform is the last of the list. *)
Definition after_capture (E : Env) (request : CrawlRequest) (task_status : nat)
    (round_idx : nat) (keyword_group : list string) (platform : string)
    (result : CaptureResult) : M unit :=
  (if success result then
     t ← read_task task_status;
     crawl_time ← now;
     saved_count ← do_save_batch platform (posts result) (comments result)
                     (Some (build_metadata (task_id t) round_idx keyword_group crawl_time));
     emit [LogSaved platform saved_count]
   else
     emit [LogPlatformFailed platform (error result)]);;
  do_create_indexes platform;;
  if bool_decide (Some platform ≠ list.last (platforms request))
  then sleep_between_platforms E
  else mret tt.

(** The [try] block, lines 307-348. *)
Definition platform_try (E : Env) (request : CrawlRequest) (task_status : nat)
    (round_idx : nat) (keyword_group : list string) (platform : string) : M unit :=
  tokens ← do_inject platform keyword_group (request_config request);
  wrapper ← make_wrapper platform;
  result ← do_run_with_capture E wrapper;
  do_restore tokens;;
  after_capture E request task_status round_idx keyword_group platform result.

(** The handler of line 350, for an [Exception] with message [e]: log, and
    [restore_config({})]. *)
Definition platform_except (platform : string) (e : string) : M unit :=
  emit [LogPlatformError platform e];;
  do_restore empty_tokens.

Definition platform_step (E : Env) (request : CrawlRequest) (task_status : nat)
    (round_idx : nat) (keyword_group : list string) (platform : string) : M unit :=
  update_task task_status (set_current_platform platform);;
  emit [LogProcessing platform];;
  try_except (platform_try E request task_status round_idx keyword_group platform)
             (platform_except platform).

(** [for platform in request.platforms] *)
Fixpoint platforms_loop (E : Env) (request : CrawlRequest) (task_status : nat)
    (round_idx : nat) (keyword_group : list string) (todo : list string) : M unit :=
  match todo with
  | [] => mret tt
  | platform :: rest =>
      platform_step E request task_status round_idx keyword_group platform;;
      platforms_loop E request task_status round_idx keyword_group rest
  end.

(** *** The rounds (lines 297-361) *)

(** [float(n)] for a natural number. *)
Definition float_of_nat (n : nat) : float :=
  PrimFloat.of_uint63 (Uint63.of_Z (Z.of_nat n)).

(** [task_status.progress = (round_idx / task_status.total_rounds) * 100];
    the division raises [ZeroDivisionError] for a zero divisor. *)
Definition update_progress (task_status : nat) (round_idx : nat) : M unit :=
  t ← read_task task_status;
  if decide (total_rounds t = 0) then raise_ (Exception "division by zero")
  else update_task task_status
         (set_progress (float_of_nat round_idx / float_of_nat (total_rounds t) * 100)%float).

Definition round_step (E : Env) (request : CrawlRequest) (task_status : nat)
    (round_idx : nat) (keyword_group : list string) : M unit :=
  update_task task_status (set_current_round round_idx);;
  t ← read_task task_status;
  emit [LogRoundStart round_idx (total_rounds t)];;
  platforms_loop E request task_status round_idx keyword_group (platforms request);;
  update_progress task_status round_idx;;
  t ← read_task task_status;
  if decide (round_idx < total_rounds t)
  then sleep_between_rounds E round_idx
  else mret tt.

(** [for round_idx, keyword_group in enumerate(request.keyword_groups, 1)] *)
Fixpoint rounds_loop (E : Env) (request : CrawlRequest) (task_status : nat)
    (round_idx : nat) (todo : list (list string)) : M unit :=
  match todo with
  | [] => mret tt
  | keyword_group :: rest =>
      round_step E request task_status round_idx keyword_group;;
      rounds_loop E request task_status (S round_idx) rest
  end.

(** *** [_run_task_background] (lines 284-378) *)

(** Lines 287-288: the task starts. *)
Definition background_start (task_status : nat) : M unit :=
  update_task task_status (set_status running);;
  t ← now;
  update_task task_status (set_start_time t).

(** Lines 364-367: all rounds are done. *)
Definition background_complete (task_status : nat) : M unit :=
  update_task task_status (set_status completed);;
  update_task task_status (set_progress 100%float);;
  t ← now;
  update_task task_status (set_end_time t);;
  t ← read_task task_status;
  emit [LogTaskCompleted (task_id t)].

(** The outer [try] block, lines 287-367. *)
Definition background_try (E : Env) (request : CrawlRequest) (task_status : nat)
    : M unit :=
  background_start task_status;;
  rounds_loop E request task_status 1 (keyword_groups request);;
  background_complete task_status.

(** The handler of line 369, for an [Exception] with message [e]. *)
Definition background_except (task_status : nat) (e : string) : M unit :=
  update_task task_status (set_status failed);;
  update_task task_status (set_error_message e);;
  t ← now;
  update_task task_status (set_end_time t);;
  t ← read_task task_status;
  emit [LogTaskFailed (task_id t) e].

(** The [finally] block: clear the slot when it tracks a task with this
    task's identifier. *)
Definition release_slot (task_status : nat) (ex : ExecState) : ExecState :=
  match _current_task ex with
  | Some current =>
      if decide (task_id (tasks ex current) = task_id (tasks ex task_status))
      then {| tasks := tasks ex; next_ref := next_ref ex;
              _current_task := None; spawned := spawned ex |}
      else ex
  | None => ex
  end.

(** [try: m finally: f]: [f] runs on every outcome, which then stands. *)
Definition try_finally {A} (m : M A) (f : World → World) : M A := λ w,
  let '(outcome, w') := m w in (outcome, f w').

Definition _run_task_background (E : Env) (request : CrawlRequest)
    (task_status : nat) : M unit :=
  try_finally
    (try_except (background_try E request task_status)
                (background_except task_status))
    (with_exec (release_slot task_status)).

End TaskExecutor.
Import TaskExecutor.

(** * Notions used to state the properties *)

(** The four identifier fields, in the order they are tried. *)
Definition id_fields : list string := ["post_id"; "note_id"; "aweme_id"; "id"].

(** The fallback rule in words: go through the fields in order and take the
    first one that yields a value (a truthy one); there is no identifier when
    none does. *)
Fixpoint first_yielding (post_data : Post) (fields : list string) : option PyVal :=
  match fields with
  | [] => None
  | f :: rest =>
      if truthy (dict_get post_data f) then Some (dict_get post_data f)
      else first_yielding post_data rest
  end.

(** The identifier the code keeps: the derived value, when it is truthy. *)
Definition kept_id (post_data : Post) : option PyVal :=
  if truthy (derive_post_id post_data) then Some (derive_post_id post_data) else None.

(** The exception that escapes the Crawler's creation or its start, if any. *)
Definition crawler_exception (run : CrawlerRun) : option Exn :=
  match create_raises run with
  | Some e => Some e
  | None => start_raises run
  end.

(** Whether a call raises an exception that [except Exception] does not
    catch. *)
Definition escapes (raised : option Exn) : bool :=
  match raised with
  | Some (BaseException _) => true
  | _ => false
  end.

(** The result dictionary of the handler at line 195. *)
Definition failure_result (e : string) : CaptureResult :=
  {| posts := []; comments := ∅; success := false; error := Some e |}.


(** The platforms a trace reports as processed (the lines of
    [task_runner.py:304]), in order. *)
Definition processed (events : list Event) : list string :=
  omap (λ e, match e with LogProcessing p => Some p | _ => None end) events.

(** Whether a trace reports that [save_batch] ran for a platform (the line
    of [db_handler.py:115]). *)
Definition batch_saved (platform : string) (events : list Event) : bool :=
  existsb (λ e, match e with
                | LogBatchSave p _ _ => bool_decide (p = platform)
                | _ => false
                end) events.

(** *** Notions for the background unit's computations *)

(** The server of a world raises nothing that escapes [except Exception]
    (no call to it is cancelled). *)
Definition uninterrupted (w : World) : Prop :=
  ∀ n, escapes (server_raises (db w) n) = false.

(** The Crawlers and the sleeps between platforms of an outside world raise
    nothing that escapes [except Exception]. *)
Definition catchable (E : Env) : Prop :=
  (∀ n st, escapes (crawler_exception (crawler E n st)) = false) ∧
  (∀ n, escapes (platform_sleep E n) = false).

(** From a world with an uninterrupted server, [m] returns, in such a world
    again. *)
Definition returns {A} (m : M A) : Prop :=
  ∀ w, uninterrupted w → uninterrupted (m w).2 ∧ ∃ a, (m w).1 = Ok a.

(** From a world with an uninterrupted server, [m] returns or raises an
    [Exception], in such a world again. *)
Definition contained {A} (m : M A) : Prop :=
  ∀ w, uninterrupted w →
       uninterrupted (m w).2 ∧ ∀ msg, (m w).1 ≠ Raise (BaseException msg).

(** Every run of [m], returning or raising, relates the state before to the
    state after. *)
Definition preserves {A} (R : relation World) (m : M A) : Prop :=
  ∀ w, R w (m w).2.

(** The relation "the observation [f] is the same". *)
Definition keeps {X} (f : World → X) : relation World := λ w w', f w' = f w.

(** An assignment that changes neither the identifier nor the number of
    rounds of a task object. *)
Definition stable (f : TaskStatus → TaskStatus) : Prop :=
  ∀ t, task_id (f t) = task_id t ∧ total_rounds (f t) = total_rounds t.

(** The relation "a batch save for [platform] that the trace reports stays
    reported". *)
Definition batch_stays (platform : string) : relation World := λ w w',
  batch_saved platform (log w) = true → batch_saved platform (log w') = true.

(** * Sample data *)

Module Sample.

(** The defaults of [server.models.CrawlerConfig]. *)
Definition crawler_config : CrawlerConfig :=
  {| login_type := "qrcode"; cookies := ""; crawler_type := "search";
     sort_type := "general"; headless := false; enable_cdp_mode := true;
     enable_proxy := false; ip_proxy_pool_count := 2; max_scan_page := 10;
     max_notes_count := 20; max_comments_per_note := 10;
     enable_get_comments := true; enable_get_sub_comments := false;
     max_sleep_sec := 2 |}.

(** A [config] module whose values all differ from what a request injects. *)
Definition settings : Config :=
  {| PLATFORM := "dy"; KEYWORDS := "python"; LOGIN_TYPE := "cookie";
     CRAWLER_TYPE := "detail"; HEADLESS := true; ENABLE_CDP_MODE := false;
     ENABLE_IP_PROXY := true; IP_PROXY_POOL_COUNT := 7;
     CRAWLER_MAX_NOTES_COUNT := 3;
     CRAWLER_MAX_COMMENTS_COUNT_SINGLENOTES := 4;
     ENABLE_GET_COMMENTS := false; ENABLE_GET_SUB_COMMENTS := true;
     CRAWLER_MAX_SLEEP_SEC := 9; SORT_TYPE := Some "popularity_descending" |}.

Definition post_B : Post := {["aweme_id" := VStr "B"]}.
Definition post_A : Post := <["post_id" := VStr "A"]> {["title" := VStr "first"]}.
Definition post_A' : Post := <["post_id" := VStr "A"]> {["title" := VStr "second"]}.
Definition post_without_id : Post := {["title" := VStr "untitled"]}.
Definition post_falsy_ids : Post :=
  <["post_id" := VStr ""]> (<["note_id" := VInt 0]>
  (<["aweme_id" := VNone]> {["id" := VBool false]})).
Definition post_empty_post_id : Post :=
  <["post_id" := VStr ""]> {["note_id" := VStr "N"]}.

Definition comment (text : string) : Comment := {["content" := VStr text]}.

Definition wrapper : Wrapper := new_wrapper 0 "dy".

(** Store modules that all have their own [save_data]. *)
Definition stores : Stores := λ _, Some OriginalSave.

(** A post whose identifier does not fit in 8 bytes. *)
Definition post_big : Post := {["id" := VInt (2 ^ 64)]}.

(** An empty database behind a connection and a server that work. *)
Definition database : DbState :=
  {| collections := ∅; indexed := ∅; fault := None;
     server_raises := λ _, None; round_trips := 0 |}.

Definition clock : Clock := {| reading := λ n, 1000 + n; ticks := 0 |}.

(** A Crawler that scrapes one post and returns, one whose [start()] raises
    an [Exception], and one whose [start()] is cancelled
    ([str(asyncio.CancelledError())] is the empty string); all hold a browser
    context. *)
Definition run_ok : CrawlerRun :=
  {| create_raises := None; saves := [(post_B, [comment "nice"])];
     start_raises := None; browser_context := Some None |}.
Definition run_raising : CrawlerRun :=
  {| create_raises := None; saves := [];
     start_raises := Some (Exception "login failed");
     browser_context := Some None |}.
Definition run_cancelled : CrawlerRun :=
  {| create_raises := None; saves := [];
     start_raises := Some (BaseException "");
     browser_context := Some None |}.

(** An executor that never admitted a task. *)
Definition executor : ExecState :=
  {| tasks := λ _, new_task_status "" 0; next_ref := 0; _current_task := None;
     spawned := [] |}.

Definition world : World :=
  {| cfg := {| config := settings; crawler_type_var := None;
               token_used := λ _, false; next_token := 0 |};
     TaskExecutor.stores := stores; next_wrapper := 0; db := database;
     TaskExecutor.clock := clock; exec := executor; log := [];
     crawls := 0; sleeps := 0 |}.

(** The outside world of the containment scenario: the Crawler raises for
    ["xhs"] and scrapes one post for every other platform; no sleep raises. *)
Definition environment : Env :=
  {| crawler := λ _ st,
       if decide (PLATFORM (config st) = "xhs") then run_raising else run_ok;
     platform_sleep := λ _, None;
     round_sleep := λ _, None |}.

(** The same outside world, except that the Crawler for ["xhs"] is
    cancelled. *)
Definition environment_cancelled : Env :=
  {| crawler := λ _ st,
       if decide (PLATFORM (config st) = "xhs") then run_cancelled else run_ok;
     platform_sleep := λ _, None;
     round_sleep := λ _, None |}.

Definition request : CrawlRequest :=
  {| platforms := ["xhs"; "wb"]; keyword_groups := [["a"]; ["b"]];
     request_config := crawler_config; request_task_id := Some "task-1";
     task_name := None |}.

(** A request whose caller supplied an empty task identifier. *)
Definition request_empty_id : CrawlRequest :=
  {| platforms := ["xhs"]; keyword_groups := [["a"]];
     request_config := crawler_config; request_task_id := Some "";
     task_name := None |}.

(** A second request, with another identifier. *)
Definition request' : CrawlRequest :=
  {| platforms := ["dy"]; keyword_groups := [["c"]];
     request_config := crawler_config; request_task_id := Some "task-2";
     task_name := None |}.

Definition uuid : string := "123e4567-e89b-42d3-a456-426614174000".

End Sample.

(** * Properties *)

(** ** Python's [or] and [dict.get] *)

Lemma py_or_falsy a b : truthy a = false → py_or a b = b.
Proof. unfold py_or. by intros ->. Qed.

Lemma py_or_truthy a b : truthy a = true → py_or a b = a.
Proof. unfold py_or. by intros ->. Qed.

Lemma dict_get_delete_eq (d : gmap string PyVal) k : dict_get (delete k d) k = VNone.
Proof. unfold dict_get. by rewrite lookup_delete_eq. Qed.

Lemma dict_get_delete_ne (d : gmap string PyVal) k k' :
  k ≠ k' → dict_get (delete k d) k' = dict_get d k'.
Proof. intros ?. unfold dict_get. by rewrite lookup_delete_ne. Qed.

Lemma dict_get_missing (d : gmap string PyVal) k : d !! k = None → dict_get d k = VNone.
Proof. unfold dict_get. by intros ->. Qed.

(** ** The identifier of a post *)

Lemma kept_id_first_yielding post_data :
  kept_id post_data = first_yielding post_data id_fields.
Proof.
  unfold kept_id, derive_post_id, id_fields, first_yielding, py_or.
  destruct (truthy (dict_get post_data "post_id")) eqn:H1;
    destruct (truthy (dict_get post_data "note_id")) eqn:H2;
    destruct (truthy (dict_get post_data "aweme_id")) eqn:H3;
    repeat (progress (simpl; rewrite ?H1, ?H2, ?H3)); done.
Qed.

Lemma first_yielding_all_falsy post_data fields :
  (∀ f, f ∈ fields → truthy (dict_get post_data f) = false) →
  first_yielding post_data fields = None.
Proof.
  induction fields as [|f rest IH]; intros H; simpl; [done|].
  rewrite H by set_solver. apply IH. intros g Hg. apply H. set_solver.
Qed.

(** A field with a falsy value counts as a missing field. *)
Lemma first_yielding_delete_falsy post_data f fields :
  truthy (dict_get post_data f) = false →
  first_yielding (delete f post_data) fields = first_yielding post_data fields.
Proof.
  intros Hfalsy. induction fields as [|g rest IH]; simpl; [done|].
  destruct (decide (f = g)) as [<-|Hne].
  - by rewrite dict_get_delete_eq, Hfalsy.
  - by rewrite dict_get_delete_ne, IH.
Qed.

Lemma kept_id_None post_data :
  kept_id post_data = None ↔ truthy (derive_post_id post_data) = false.
Proof. unfold kept_id. destruct (truthy (derive_post_id post_data)); naive_solver. Qed.

Lemma derive_all_falsy post_data :
  (∀ f, f ∈ id_fields → truthy (dict_get post_data f) = false) →
  truthy (derive_post_id post_data) = false.
Proof.
  intros H. apply kept_id_None. rewrite kept_id_first_yielding.
  by apply first_yielding_all_falsy.
Qed.

Lemma derive_none_present post_data :
  (∀ f, f ∈ id_fields → post_data !! f = None) →
  truthy (derive_post_id post_data) = false.
Proof.
  intros H. apply derive_all_falsy. intros f Hf.
  by rewrite dict_get_missing; [|apply H].
Qed.

Lemma kept_id_delete_falsy post_data f :
  truthy (dict_get post_data f) = false →
  kept_id (delete f post_data) = kept_id post_data.
Proof. intros H. rewrite !kept_id_first_yielding. by apply first_yielding_delete_falsy. Qed.

(** ** The capture hook *)

Lemma capture_drop self post_data comments_data :
  truthy (derive_post_id post_data) = false →
  _capture_save_data self post_data comments_data = self.
Proof. unfold _capture_save_data. by intros ->. Qed.

Lemma capture_keep self post_data comments_data :
  truthy (derive_post_id post_data) = true →
  captured_posts (_capture_save_data self post_data comments_data)
    = captured_posts self ++ [post_data] ∧
  captured_comments (_capture_save_data self post_data comments_data)
    !! py_str (derive_post_id post_data) = Some comments_data.
Proof.
  unfold _capture_save_data. intros ->. simpl. split; [done|].
  apply lookup_insert_eq.
Qed.

(** ** The outcome of [run_with_capture] *)

Lemma run_with_capture_try_outcome run self stores :
  match crawler_exception run with
  | Some e => (run_with_capture_try run self stores).1.1.1 = Raise e
  | None => ∃ result, (run_with_capture_try run self stores).1.1.1 = Ok result ∧
                      success result = true
  end.
Proof.
  unfold crawler_exception, run_with_capture_try.
  destruct (create_raises run) as [e|]; [done|].
  destruct (_setup_data_capture self stores).
  destruct (start_raises run) as [e|]; [done|]. eauto.
Qed.

Lemma run_with_capture_failure run self stores msg :
  crawler_exception run = Some (Exception msg) →
  (run_with_capture run self stores).1.1.1 = Ok (failure_result msg).
Proof.
  intros He. pose proof (run_with_capture_try_outcome run self stores) as H.
  rewrite He in H. unfold run_with_capture.
  destruct (run_with_capture_try run self stores) as [[[o s] st] ev].
  simpl in H. by subst o.
Qed.

Lemma run_with_capture_escape run self stores msg :
  crawler_exception run = Some (BaseException msg) →
  (run_with_capture run self stores).1.1.1 = Raise (BaseException msg).
Proof.
  intros He. pose proof (run_with_capture_try_outcome run self stores) as H.
  rewrite He in H. unfold run_with_capture.
  destruct (run_with_capture_try run self stores) as [[[o s] st] ev].
  simpl in H. by subst o.
Qed.

Lemma run_with_capture_success run self stores :
  crawler_exception run = None →
  ∃ result, (run_with_capture run self stores).1.1.1 = Ok result ∧
            success result = true.
Proof.
  intros He. pose proof (run_with_capture_try_outcome run self stores) as H.
  rewrite He in H. destruct H as (result & H & Hs). unfold run_with_capture.
  destruct (run_with_capture_try run self stores) as [[[o s] st] ev].
  simpl in H. subst o. eauto.
Qed.

(** No [Exception] leaves [run_with_capture]. *)
Lemma run_with_capture_no_exception run self stores msg :
  (run_with_capture run self stores).1.1.1 ≠ Raise (Exception msg).
Proof.
  unfold run_with_capture.
  destruct (run_with_capture_try run self stores) as [[[[r|[m|m]] s] st] ev];
    simpl; done.
Qed.

(** Unless the Crawler raises an exception that [except Exception] does not
    catch, [run_with_capture] returns. *)
Lemma run_with_capture_returns run self stores :
  escapes (crawler_exception run) = false →
  ∃ result, (run_with_capture run self stores).1.1.1 = Ok result.
Proof.
  intros He. destruct (crawler_exception run) as [[msg|msg]|] eqn:Hrun; [| done |].
  - rewrite (run_with_capture_failure _ _ _ msg) by done. eauto.
  - destruct (run_with_capture_success run self stores Hrun) as (r & -> & _). eauto.
Qed.

(** ** Saving *)

#[local] Opaque encodable.

Lemma save_without_id platform post_data comments metadata clk db :
  truthy (derive_post_id post_data) = false →
  (save_post_with_comments platform post_data comments metadata clk db).1
    = (Ok false, clk, db).
Proof.
  intros H. unfold save_post_with_comments, save_post_with_comments_try, get_collection.
  destruct (fault db); [done|]. by rewrite H.
Qed.

(** What the driver's call leaves behind: the upsert when it returns, the
    collections as they were when it raises. *)
Lemma collection_update_one_spec name id document db :
  match (collection_update_one name id document db).1 with
  | Ok _ =>
      encodable document = true ∧ server_raises db (round_trips db) = None ∧
      collections (collection_update_one name id document db).2
        = <[name := (update_one id document (default [] (collections db !! name))).1]>
            (collections db)
  | Raise _ =>
      (encodable document = false ∨ server_raises db (round_trips db) ≠ None) ∧
      collections (collection_update_one name id document db).2 = collections db
  end.
Proof.
  unfold collection_update_one, round_trip.
  destruct (encodable document); [|simpl; auto].
  destruct (server_raises db (round_trips db)) as [e|]; simpl; [auto|].
  by destruct (update_one _ _ _).
Qed.

Lemma collection_update_one_keeps name id document db :
  fault (collection_update_one name id document db).2 = fault db ∧
  server_raises (collection_update_one name id document db).2 = server_raises db ∧
  indexed (collection_update_one name id document db).2 = indexed db.
Proof.
  unfold collection_update_one, round_trip.
  destruct (encodable document); [|done].
  destruct (server_raises db (round_trips db)) as [e|]; simpl; [done|].
  by destruct (update_one _ _ _).
Qed.

(** The result of a save for a post with an identifier, over a connection
    that is up: what the driver's call decides. *)
Lemma save_with_id platform post_data comments metadata clk db :
  fault db = None →
  truthy (derive_post_id post_data) = true →
  save_post_with_comments platform post_data comments metadata clk db
    = let call :=
        collection_update_one (collection_name platform)
          (py_str (derive_post_id post_data))
          (build_document (derive_post_id post_data) post_data comments metadata
             (datetime_now clk).1) db in
      match call.1 with
      | Ok _ => (Ok true, (datetime_now clk).2, call.2, [])
      | Raise e =>
          match caught e with
          | Some msg => (Ok false, (datetime_now clk).2, call.2,
                         [LogSaveFailed platform msg])
          | None => (Raise e, (datetime_now clk).2, call.2, [])
          end
      end.
Proof.
  intros Hf Hid.
  unfold save_post_with_comments, save_post_with_comments_try, get_collection.
  rewrite Hf, Hid. cbv beta iota zeta. unfold negb, datetime_now. cbv beta iota.
  destruct (collection_update_one _ _ _ _) as [[u|e] db']; cbn [fst snd]; [done|].
  by destruct (caught e).
Qed.

Lemma save_without_connection platform post_data comments metadata clk db msg :
  fault db = Some msg →
  save_post_with_comments platform post_data comments metadata clk db
    = (Ok false, clk, db, [LogSaveFailed platform msg]).
Proof.
  intros Hf.
  unfold save_post_with_comments, save_post_with_comments_try, get_collection.
  by rewrite Hf.
Qed.

(** A save returns [True] exactly when the post has an identifier, the
    connection is up, the document can be encoded and the server does not
    fail the call. *)
Lemma save_true_iff platform post_data comments metadata clk db :
  (save_post_with_comments platform post_data comments metadata clk db).1.1.1 = Ok true
  ↔ truthy (derive_post_id post_data) = true ∧
    fault db = None ∧
    encodable (build_document (derive_post_id post_data) post_data comments metadata
                 (reading clk (ticks clk))) = true ∧
    server_raises db (round_trips db) = None.
Proof.
  destruct (truthy (derive_post_id post_data)) eqn:Hid.
  2: { rewrite save_without_id by done. split; [done|]. by intros [? _]. }
  destruct (fault db) as [msg|] eqn:Hf.
  { rewrite (save_without_connection _ _ _ _ _ _ msg) by done.
    split; [done|]. by intros (_ & ? & _). }
  rewrite save_with_id by done. cbv zeta.
  match goal with |- context [collection_update_one ?a ?b ?c ?d] =>
    pose proof (collection_update_one_spec a b c d) as H;
    destruct (collection_update_one a b c d) as [[u|e] db']
  end; cbn [fst snd] in *.
  - destruct H as (H1 & H2 & _).
    split; [intros _; split; [reflexivity | split; [reflexivity |
                                split; [exact H1 | exact H2]]]
           | reflexivity].
  - destruct H as [H _]. unfold datetime_now in H. cbn [fst] in H.
    assert (∀ X : Outcome bool * Clock * DbState * list Event,
              (match caught e with
               | Some msg => (Ok false, (datetime_now clk).2, db',
                              [LogSaveFailed platform msg])
               | None => (Raise e, (datetime_now clk).2, db', [])
               end).1.1.1 ≠ Ok true) as Hne.
    { intros _. by destruct (caught e). }
    split; [intros Ht; by destruct (Hne (Ok true, clk, db, []))|].
    intros (_ & _ & H1 & H2). destruct H as [H|H]; congruence.
Qed.

(** A save that returns [True]: the post has an identifier, the clock was
    read once and the collection is the result of the upsert. *)
Lemma save_true platform post_data comments metadata clk db :
  (save_post_with_comments platform post_data comments metadata clk db).1.1.1 = Ok true →
  truthy (derive_post_id post_data) = true ∧
  (save_post_with_comments platform post_data comments metadata clk db).1.1.2
    = (datetime_now clk).2 ∧
  collections (save_post_with_comments platform post_data comments metadata clk db).1.2
    = <[collection_name platform :=
          (update_one (py_str (derive_post_id post_data))
             (build_document (derive_post_id post_data) post_data comments
                metadata (datetime_now clk).1)
             (default [] (collections db !! collection_name platform))).1]>
        (collections db).
Proof.
  destruct (fault db) as [msg|] eqn:Hf.
  { by rewrite (save_without_connection _ _ _ _ _ _ msg). }
  destruct (truthy (derive_post_id post_data)) eqn:Hid.
  2: { by rewrite save_without_id. }
  rewrite save_with_id by done. cbv zeta.
  match goal with |- context [collection_update_one ?a ?b ?c ?d] =>
    pose proof (collection_update_one_spec a b c d) as H;
    destruct (collection_update_one a b c d) as [[u|e] db']
  end; cbn [fst snd] in *.
  - by destruct H as (_ & _ & ->).
  - by destruct (caught e).
Qed.

(** A save that does not return [True] leaves every collection as it was. *)
Lemma save_not_true platform post_data comments metadata clk db :
  (save_post_with_comments platform post_data comments metadata clk db).1.1.1 ≠ Ok true →
  collections (save_post_with_comments platform post_data comments metadata clk db).1.2
    = collections db.
Proof.
  destruct (fault db) as [msg|] eqn:Hf.
  { by rewrite (save_without_connection _ _ _ _ _ _ msg). }
  destruct (truthy (derive_post_id post_data)) eqn:Hid.
  2: { by rewrite save_without_id. }
  rewrite save_with_id by done. cbv zeta.
  match goal with |- context [collection_update_one ?a ?b ?c ?d] =>
    pose proof (collection_update_one_spec a b c d) as H;
    destruct (collection_update_one a b c d) as [[u|e] db']
  end; cbn [fst snd] in *.
  - done.
  - destruct H as [_ H]. by destruct (caught e).
Qed.

Lemma save_batch_loop_skip platform post_data rest comments_dict metadata n clk db evs :
  truthy (derive_post_id post_data) = false →
  save_batch_loop platform (post_data :: rest) comments_dict metadata n clk db evs
    = save_batch_loop platform rest comments_dict metadata n clk db evs.
Proof. intros H. simpl. by rewrite H. Qed.

Lemma save_batch_loop_app platform l1 l2 comments_dict metadata n clk db evs :
  save_batch_loop platform (l1 ++ l2) comments_dict metadata n clk db evs
    = match save_batch_loop platform l1 comments_dict metadata n clk db evs with
      | (Ok n', clk', db', evs') =>
          save_batch_loop platform l2 comments_dict metadata n' clk' db' evs'
      | (Raise e, clk', db', evs') => (Raise e, clk', db', evs')
      end.
Proof.
  revert n clk db evs. induction l1 as [|p l1 IH]; intros n clk db evs; simpl; [done|].
  destruct (negb (truthy (derive_post_id p))); [apply IH|].
  destruct (save_post_with_comments _ _ _ _ _ _) as [[[[ok|e] clk'] db'] evs'];
    [apply IH | done].
Qed.

(** A post without identifier changes neither the outcome nor the state of a
    batch, wherever it stands in the batch. *)
Lemma save_batch_skip platform l1 post_data l2 comments_dict metadata clk db :
  truthy (derive_post_id post_data) = false →
  (save_batch platform (l1 ++ post_data :: l2) comments_dict metadata clk db).1
    = (save_batch platform (l1 ++ l2) comments_dict metadata clk db).1.
Proof.
  intros H. unfold save_batch. rewrite !save_batch_loop_app.
  destruct (save_batch_loop platform l1 _ _ _ _ _ _) as [[[[n1|e1] clk1] db1] evs1];
    [|done].
  rewrite save_batch_loop_skip by done.
  by destruct (save_batch_loop platform l2 _ _ _ _ _ _) as [[[[n2|e2] clk2] db2] evs2].
Qed.

(** ** The upsert *)

Lemma update_first_documents id document docs :
  document !! "post_id" = Some (DStr id) →
  match filter (λ d, matches id d = true) docs with
  | [] => update_first id document docs = None
  | d :: ds =>
      ∃ docs', update_first id document docs = Some docs' ∧
               filter (λ d, matches id d = true) docs' = (document ∪ d) :: ds
  end.
Proof.
  intros Hid. induction docs as [|d rest IH]; simpl; [done|].
  rewrite filter_cons. destruct (matches id d) eqn:Hm.
  - rewrite decide_True by done. eexists; split; [done|].
    rewrite filter_cons, decide_True; [done|].
    unfold matches. apply bool_decide_eq_true.
    by rewrite lookup_union_l'; [|rewrite Hid].
  - rewrite decide_False by done.
    destruct (filter _ rest) as [|d' ds].
    + by rewrite IH.
    + destruct IH as (docs' & -> & Hf). eexists; split; [done|].
      rewrite filter_cons, decide_False by (by rewrite Hm). done.
Qed.

Lemma update_one_documents id document docs :
  document !! "post_id" = Some (DStr id) →
  filter (λ d, matches id d = true) (update_one id document docs).1
    = match filter (λ d, matches id d = true) docs with
      | [] => [document ∪ {["post_id" := DStr id]}]
      | d :: ds => (document ∪ d) :: ds
      end.
Proof.
  intros Hid. unfold update_one.
  pose proof (update_first_documents id document docs Hid) as H.
  destruct (filter _ docs) as [|d ds] eqn:Hf.
  - rewrite H. simpl. rewrite list.filter_app, Hf. simpl.
    rewrite filter_cons, decide_True; [done|].
    unfold matches. apply bool_decide_eq_true.
    by rewrite lookup_union_l'; [|rewrite Hid].
  - by destruct H as (docs' & -> & ?).
Qed.

Lemma build_document_fields post_id post_data comments metadata t :
  let document := build_document post_id post_data comments metadata t in
  document !! "post_id" = Some (DStr (py_str post_id)) ∧
  document !! "post_detail" = Some (DPost post_data) ∧
  document !! "comments" = Some (DComments comments) ∧
  document !! "comment_count" = Some (DInt (length comments)) ∧
  document !! "crawl_metadata" = Some (DMeta (default ∅ metadata)) ∧
  document !! "updated_at" = Some (DTime t).
Proof. unfold build_document. simpl. repeat split; by simplify_map_eq. Qed.

Lemma union_document_fields (document d : Doc) k v :
  document !! k = Some v → (document ∪ d) !! k = Some v.
Proof. intros H. by apply lookup_union_Some_l. Qed.

(** The documents with identifier [id] after a save that returns [True]: the
    first one carries the new fields, or a new document is added when there
    was none. *)
Lemma save_documents platform post_data comments metadata clk db :
  (save_post_with_comments platform post_data comments metadata clk db).1.1.1 = Ok true →
  let id := py_str (derive_post_id post_data) in
  let document :=
    build_document (derive_post_id post_data) post_data comments metadata
      (reading clk (ticks clk)) in
  documents_with_id platform id
    (save_post_with_comments platform post_data comments metadata clk db).1.2
  = match documents_with_id platform id db with
    | [] => [document ∪ {["post_id" := DStr id]}]
    | d :: ds => (document ∪ d) :: ds
    end.
Proof.
  intros Hok id document. apply save_true in Hok as (_ & _ & Hc).
  unfold documents_with_id. rewrite Hc, lookup_insert_eq.
  cbn [default]. apply update_one_documents.
  apply (build_document_fields (derive_post_id post_data)).
Qed.

(** The first document with the identifier after a save that returns [True]
    carries the fields of this save; the documents after it are the ones
    that were there. *)
Lemma save_first_document platform post_data comments metadata clk db :
  (save_post_with_comments platform post_data comments metadata clk db).1.1.1 = Ok true →
  let id := py_str (derive_post_id post_data) in
  ∃ d, documents_with_id platform id
         (save_post_with_comments platform post_data comments metadata clk db).1.2
         = d :: tail (documents_with_id platform id db) ∧
       d !! "post_id" = Some (DStr id) ∧
       d !! "post_detail" = Some (DPost post_data) ∧
       d !! "comments" = Some (DComments comments) ∧
       d !! "comment_count" = Some (DInt (length comments)) ∧
       d !! "crawl_metadata" = Some (DMeta (default ∅ metadata)) ∧
       d !! "updated_at" = Some (DTime (reading clk (ticks clk))).
Proof.
  intros Hok id.
  pose proof (save_documents platform post_data comments metadata clk db Hok) as Hdocs.
  pose proof (build_document_fields (derive_post_id post_data) post_data comments
                metadata (reading clk (ticks clk))) as (F1 & F2 & F3 & F4 & F5 & F6).
  cbv zeta in Hdocs, F1, F2, F3, F4, F5, F6. fold id in Hdocs, F1. rewrite Hdocs.
  destruct (documents_with_id platform id db) as [|d0 ds];
    (eexists; split; [reflexivity|]); repeat split;
    by apply union_document_fields.
Qed.

(** ** What a save leaves alone *)

Lemma string_length_app (s1 s2 : string) :
  String.length (s1 +:+ s2) = String.length s1 + String.length s2.
Proof. induction s1 as [|a s1 IH]; simpl; [done|]. by rewrite IH. Qed.

Lemma collection_name_inj p1 p2 : collection_name p1 = collection_name p2 → p1 = p2.
Proof.
  unfold collection_name. revert p2.
  induction p1 as [|a p1 IH]; intros [|b p2] H; simpl in *; try done.
  - exfalso. apply (f_equal String.length) in H. simpl in H.
    rewrite string_length_app in H. simpl in H. lia.
  - exfalso. apply (f_equal String.length) in H. simpl in H.
    rewrite string_length_app in H. simpl in H. lia.
  - injection H as -> H. f_equal. by apply IH.
Qed.

Lemma matches_union_document id id' (document d : Doc) :
  document !! "post_id" = Some (DStr id) →
  matches id' (document ∪ d) = bool_decide (id' = id).
Proof.
  intros H. unfold matches. rewrite (lookup_union_Some_l _ _ _ _ H).
  apply bool_decide_ext. split; [by intros [= ->]|by intros ->].
Qed.

(** An upsert leaves the documents with other identifiers alone. *)
Lemma update_first_other_ids id id' document docs docs' :
  document !! "post_id" = Some (DStr id) → id' ≠ id →
  update_first id document docs = Some docs' →
  filter (λ d, matches id' d = true) docs'
    = filter (λ d, matches id' d = true) docs.
Proof.
  intros Hid Hne. revert docs'.
  induction docs as [|d rest IH]; intros docs' H; simpl in H; [done|].
  destruct (matches id d) eqn:Hm.
  - injection H as <-. rewrite !filter_cons.
    rewrite (matches_union_document id id') by done.
    rewrite bool_decide_eq_false_2 by done.
    apply bool_decide_eq_true in Hm.
    assert (matches id' d = false) as ->; [|done].
    apply bool_decide_eq_false. rewrite Hm. by intros [= ->].
  - destruct (update_first id document rest) as [rest'|]; [|done].
    injection H as <-. rewrite !filter_cons. by rewrite (IH rest').
Qed.

Lemma update_one_other_ids id id' document docs :
  document !! "post_id" = Some (DStr id) → id' ≠ id →
  filter (λ d, matches id' d = true) (update_one id document docs).1
    = filter (λ d, matches id' d = true) docs.
Proof.
  intros Hid Hne. unfold update_one.
  destruct (update_first id document docs) as [docs'|] eqn:H; simpl.
  - by apply (update_first_other_ids id id' document docs).
  - rewrite list.filter_app, filter_cons.
    assert (matches id' (document ∪ {["post_id" := DStr id]}) = false) as ->.
    { rewrite (matches_union_document id id') by done.
      by apply bool_decide_eq_false_2. }
    simpl. by rewrite app_nil_r.
Qed.

Lemma save_other_documents platform post_data cs metadata clk db platform' id' :
  platform' ≠ platform ∨ id' ≠ py_str (derive_post_id post_data) →
  documents_with_id platform' id'
    (save_post_with_comments platform post_data cs metadata clk db).1.2
  = documents_with_id platform' id' db.
Proof.
  intros Hother. unfold documents_with_id.
  destruct ((save_post_with_comments platform post_data cs metadata clk db).1.1.1)
    as [[|]|e] eqn:Ho.
  2, 3: by rewrite save_not_true by (by rewrite Ho).
  apply save_true in Ho as (_ & _ & ->).
  destruct (decide (platform' = platform)) as [->|Hp].
  - destruct Hother as [?|Hne]; [done|].
    rewrite lookup_insert_eq. cbn [default]. apply update_one_other_ids; [|done].
    apply (build_document_fields (derive_post_id post_data)).
  - rewrite lookup_insert_ne; [done|].
    intros H. by apply collection_name_inj in H.
Qed.

(** A save never adds a second document with an identifier. *)
Lemma save_keeps_unique platform post_data cs metadata clk db id' :
  (length (documents_with_id platform id' db) ≤ 1)%nat →
  (length (documents_with_id platform id'
             (save_post_with_comments platform post_data cs metadata clk db).1.2)
     ≤ 1)%nat.
Proof.
  intros Hone.
  destruct ((save_post_with_comments platform post_data cs metadata clk db).1.1.1)
    as [[|]|e] eqn:Ho.
  2, 3: by (unfold documents_with_id in *; rewrite save_not_true by (by rewrite Ho)).
  destruct (decide (id' = py_str (derive_post_id post_data))) as [->|Hne].
  - destruct (save_first_document platform post_data cs metadata clk db Ho)
      as (d & -> & _).
    destruct (documents_with_id platform _ db) as [|d0 [|d1 ds]];
      simpl in *; lia.
  - by rewrite save_other_documents by auto.
Qed.

(** ** The claims on the capture, on identifiers and on saving *)

(** C6, as stated, fails on "never raises": when the Crawler's [start()]
    raises an exception whose class does not derive from [Exception] (here
    [asyncio.CancelledError]), the handler of line 193 does not catch it and
    [run_with_capture] raises it; no result is returned. *)
Lemma run_with_capture_raises_counterexample :
  start_raises Sample.run_cancelled = Some (BaseException "") ∧
  (run_with_capture Sample.run_cancelled Sample.wrapper Sample.stores).1.1.1
    = Raise (BaseException "") ∧
  (∀ result,
     (run_with_capture Sample.run_cancelled Sample.wrapper Sample.stores).1.1.1
       ≠ Ok result).
Proof.
  split; [reflexivity|]. split; [reflexivity|].
  intros result. vm_compute. discriminate.
Qed.

(** C6, amended. No exception that derives from [Exception] leaves
    [run_with_capture]: when such an exception escapes the Crawler's creation
    or its start, the method returns a result with [success = False], [error]
    the exception's message, no posts and no comments.  An exception that
    does not derive from [Exception] and escapes the Crawler's creation or
    its start is not caught: [run_with_capture] raises it.  When nothing
    escapes, the method returns a result with [success = True]. *)
Theorem run_with_capture_catches_exceptions (run : CrawlerRun) (self : Wrapper)
    (stores : Stores) :
  let outcome := (run_with_capture run self stores).1.1.1 in
  (∀ msg, outcome ≠ Raise (Exception msg)) ∧
  (∀ msg, crawler_exception run = Some (Exception msg) →
          outcome = Ok {| posts := []; comments := ∅; success := false;
                          error := Some msg |}) ∧
  (∀ msg, crawler_exception run = Some (BaseException msg) →
          outcome = Raise (BaseException msg)) ∧
  (crawler_exception run = None →
   ∃ result, outcome = Ok result ∧ success result = true).
Proof.
  intros outcome. split; [|split; [|split]].
  - intros msg. apply run_with_capture_no_exception.
  - intros msg He. by apply run_with_capture_failure.
  - intros msg He. by apply run_with_capture_escape.
  - intros He. by apply run_with_capture_success.
Qed.

Lemma run_with_capture_catches_exceptions_witness :
  (run_with_capture Sample.run_raising Sample.wrapper Sample.stores).1.1.1
    = Ok {| posts := []; comments := ∅; success := false;
            error := Some "login failed" |} ∧
  (run_with_capture Sample.run_cancelled Sample.wrapper Sample.stores).1.1.1
    = Raise (BaseException "").
Proof.
  split.
  - apply (proj1 (proj2 (run_with_capture_catches_exceptions Sample.run_raising
                           Sample.wrapper Sample.stores))).
    reflexivity.
  - apply (proj1 (proj2 (proj2 (run_with_capture_catches_exceptions
                                  Sample.run_cancelled Sample.wrapper
                                  Sample.stores)))).
    reflexivity.
Defined.

(** C7. The capture hook and the save derive the identifier of a post by
    trying [post_id], [note_id], [aweme_id], [id] in this order and taking the
    first that yields a value: the post is then captured under that
    identifier, and a save of it that goes through stores it under that
    identifier.  A post with only [aweme_id = "B"] gets ["B"].  A post with
    none of the four fields is dropped: not captured, [save] returns [False]
    for it and changes nothing, and it does not count in [save_batch]. *)
Theorem identifier_fallback_order (post_data : Post) :
  kept_id post_data = first_yielding post_data id_fields ∧
  (∀ v self cs,
     first_yielding post_data id_fields = Some v →
     captured_posts (_capture_save_data self post_data cs)
       = captured_posts self ++ [post_data] ∧
     captured_comments (_capture_save_data self post_data cs) !! py_str v = Some cs) ∧
  (∀ v platform cs metadata clk db,
     first_yielding post_data id_fields = Some v →
     (save_post_with_comments platform post_data cs metadata clk db).1.1.1 = Ok true →
     ∃ d, d ∈ documents_with_id platform (py_str v)
                (save_post_with_comments platform post_data cs metadata clk db).1.2 ∧
          d !! "post_id" = Some (DStr (py_str v)) ∧
          d !! "post_detail" = Some (DPost post_data)) ∧
  (post_data !! "post_id" = None → post_data !! "note_id" = None →
   post_data !! "aweme_id" = Some (VStr "B") →
   derive_post_id post_data = VStr "B" ∧
   first_yielding post_data id_fields = Some (VStr "B")) ∧
  ((∀ f, f ∈ id_fields → post_data !! f = None) →
   first_yielding post_data id_fields = None ∧
   (∀ self cs, _capture_save_data self post_data cs = self) ∧
   (∀ platform cs metadata clk db,
      (save_post_with_comments platform post_data cs metadata clk db).1
        = (Ok false, clk, db)) ∧
   (∀ platform before after comments_dict metadata clk db,
      (save_batch platform (before ++ post_data :: after) comments_dict metadata clk db).1
        = (save_batch platform (before ++ after) comments_dict metadata clk db).1)).
Proof.
  pose proof (kept_id_first_yielding post_data) as Hkept.
  split; [done|]. rewrite <- Hkept. unfold kept_id.
  split; [|split; [|split]].
  - intros v self cs Hv.
    destruct (truthy (derive_post_id post_data)) eqn:Hid; [|done].
    injection Hv as <-. by apply capture_keep.
  - intros v platform cs metadata clk db Hv Hok.
    destruct (truthy (derive_post_id post_data)) eqn:Hid; [|done].
    injection Hv as <-.
    destruct (save_first_document platform post_data cs metadata clk db Hok)
      as (d & Hdocs & F1 & F2 & _).
    exists d. rewrite Hdocs. split; [apply list_elem_of_here|]. by split.
  - intros H1 H2 H3.
    assert (derive_post_id post_data = VStr "B") as ->; [|done].
    unfold derive_post_id, dict_get. by rewrite H1, H2, H3.
  - intros Hnone. pose proof (derive_none_present _ Hnone) as Hid. rewrite Hid.
    split; [done|]. split; [|split].
    + intros. by apply capture_drop.
    + intros. by apply save_without_id.
    + intros. by apply save_batch_skip.
Qed.

Lemma identifier_fallback_order_witness :
  (derive_post_id Sample.post_B = VStr "B" ∧
   first_yielding Sample.post_B id_fields = Some (VStr "B")) ∧
  (∃ d, d ∈ documents_with_id "dy" (py_str (VStr "B"))
              (save_post_with_comments "dy" Sample.post_B [Sample.comment "nice"]
                 None Sample.clock Sample.database).1.2 ∧
        d !! "post_id" = Some (DStr (py_str (VStr "B"))) ∧
        d !! "post_detail" = Some (DPost Sample.post_B)) ∧
  _capture_save_data Sample.wrapper Sample.post_without_id [Sample.comment "lost"]
    = Sample.wrapper.
Proof.
  split; [|split].
  - destruct (identifier_fallback_order Sample.post_B) as (_ & _ & _ & H & _).
    apply H; reflexivity.
  - destruct (identifier_fallback_order Sample.post_B) as (_ & _ & H & _).
    apply H; vm_compute; reflexivity.
  - destruct (identifier_fallback_order Sample.post_without_id) as (_ & _ & _ & _ & H).
    apply H. intros f Hf. unfold id_fields in Hf.
    repeat (apply elem_of_cons in Hf as [-> | Hf]; [reflexivity|]).
    by apply elem_of_nil in Hf.
Defined.

(** C9. A field that is present with a falsy value (an empty string, [0],
    [None]) counts as absent: the identifier is the one of the post without
    that field, so a falsy [post_id] hands over to [note_id], then [aweme_id],
    then [id]; and a post whose four fields are all falsy is dropped by the
    hook, by [save] and by [save_batch], as a post without the fields is. *)
Theorem falsy_identifier_counts_as_absent (post_data : Post) :
  (∀ f, truthy (dict_get post_data f) = false →
        kept_id post_data = kept_id (delete f post_data)) ∧
  (truthy (dict_get post_data "post_id") = false →
   derive_post_id post_data
     = py_or (py_or (dict_get post_data "note_id") (dict_get post_data "aweme_id"))
             (dict_get post_data "id") ∧
   kept_id post_data = first_yielding post_data ["note_id"; "aweme_id"; "id"]) ∧
  ((∀ f, f ∈ id_fields → truthy (dict_get post_data f) = false) →
   kept_id post_data = None ∧
   (∀ self cs, _capture_save_data self post_data cs = self) ∧
   (∀ platform cs metadata clk db,
      (save_post_with_comments platform post_data cs metadata clk db).1
        = (Ok false, clk, db)) ∧
   (∀ platform before after comments_dict metadata clk db,
      (save_batch platform (before ++ post_data :: after) comments_dict metadata clk db).1
        = (save_batch platform (before ++ after) comments_dict metadata clk db).1)).
Proof.
  split; [|split].
  - intros f Hf. symmetry. by apply kept_id_delete_falsy.
  - intros Hf. split.
    + unfold derive_post_id. by rewrite (py_or_falsy _ _ Hf).
    + rewrite kept_id_first_yielding. unfold id_fields. simpl. by rewrite Hf.
  - intros Hall. pose proof (derive_all_falsy _ Hall) as Hid.
    split; [by apply kept_id_None|]. split; [|split].
    + intros. by apply capture_drop.
    + intros. by apply save_without_id.
    + intros. by apply save_batch_skip.
Qed.

Lemma falsy_identifier_counts_as_absent_witness :
  (derive_post_id Sample.post_empty_post_id = VStr "N" ∧
   kept_id Sample.post_empty_post_id = Some (VStr "N")) ∧
  (save_batch "dy" [Sample.post_A; Sample.post_falsy_ids] ∅ None
     Sample.clock Sample.database).1
  = (save_batch "dy" [Sample.post_A] ∅ None Sample.clock Sample.database).1.
Proof.
  split.
  - destruct (falsy_identifier_counts_as_absent Sample.post_empty_post_id)
      as (_ & H & _).
    apply H. reflexivity.
  - destruct (falsy_identifier_counts_as_absent Sample.post_falsy_ids)
      as (_ & _ & H).
    destruct H as (_ & _ & _ & H).
    + intros f Hf. unfold id_fields in Hf.
      repeat (apply elem_of_cons in Hf as [-> | Hf]; [reflexivity|]).
      by apply elem_of_nil in Hf.
    + apply (H "dy" [Sample.post_A] []).
Defined.



(** A post whose identifier does not fit in 8 bytes: the driver raises
    [OverflowError], the save returns [False] and stores nothing. *)
Lemma save_unencodable_post :
  let result :=
    save_post_with_comments "xhs" Sample.post_big [] None Sample.clock
      Sample.database in
  result.1.1.1 = Ok false ∧
  documents_with_id "xhs" (py_str (derive_post_id Sample.post_big)) result.1.2 = [] ∧
  result.2 = [LogSaveFailed "xhs" "MongoDB can only handle up to 8-byte ints"].
Proof. vm_compute. repeat split. Qed.

(** ** Reasoning about the background unit's computations *)


Lemma bind_run {A B} (m : M A) (k : A → M B) (w : World) :
  (m ≫= k) w = match m w with
               | (Ok a, w') => k a w'
               | (Raise e, w') => (Raise e, w')
               end.
Proof. reflexivity. Qed.

(** Reduce the [match] on the outcome of a step that has been run. *)
Ltac step := rewrite ?bind_run; cbv beta iota.

#[local] Instance keeps_refl {X} (f : World → X) : Reflexive (keeps f).
Proof. by intros w. Qed.

#[local] Instance keeps_trans {X} (f : World → X) : Transitive (keeps f).
Proof. unfold keeps. intros w1 w2 w3 H1 H2. by rewrite H2. Qed.

Section Preserves.
Context (R : relation World) `{!Reflexive R, !Transitive R}.

Lemma preserves_ret {A} (a : A) : preserves R (mret a).
Proof. intros w. simpl. reflexivity. Qed.

Lemma preserves_raise {A} e : preserves R (@raise_ A e).
Proof. intros w. simpl. reflexivity. Qed.

Lemma preserves_bind {A B} (m : M A) (k : A → M B) :
  preserves R m → (∀ a, preserves R (k a)) → preserves R (m ≫= k).
Proof.
  intros Hm Hk w. rewrite bind_run. specialize (Hm w).
  destruct (m w) as [[a|e] w']; simpl in *; [|done].
  etrans; [exact Hm | apply Hk].
Qed.

Lemma preserves_try_except {A} (m : M A) (h : string → M A) :
  preserves R m → (∀ e, preserves R (h e)) → preserves R (try_except m h).
Proof.
  intros Hm Hh w. unfold try_except. specialize (Hm w).
  destruct (m w) as [[a|e] w']; simpl in *; [done|].
  destruct (caught e) as [msg|]; [|done].
  etrans; [exact Hm | apply Hh].
Qed.

Lemma preserves_if {A} (b : bool) (m1 m2 : M A) :
  preserves R m1 → preserves R m2 → preserves R (if b then m1 else m2).
Proof. by destruct b. Qed.

Lemma preserves_if_dec {A} {P : Prop} (d : Decision P) (m1 m2 : M A) :
  preserves R m1 → preserves R m2 → preserves R (if d then m1 else m2).
Proof. by destruct d. Qed.
End Preserves.

Create HintDb preserves discriminated.

#[local] Hint Resolve preserves_ret preserves_raise preserves_bind
  preserves_try_except preserves_if preserves_if_dec : preserves.
#[local] Hint Extern 0 (Reflexive (keeps _)) => apply keeps_refl : preserves.
#[local] Hint Extern 0 (Transitive (keeps _)) => apply keeps_trans : preserves.

(** *** What the calls leave alone *)

(** The state a call leaves behind, when the call is one on the database or
    on the Crawler. *)
Lemma do_run_with_capture_run E self w :
  do_run_with_capture E self w
    = let result := run_with_capture (crawler E (crawls w) (cfg w)) self (stores w) in
      (result.1.1.1,
       {| cfg := cfg w; TaskExecutor.stores := result.1.2;
          next_wrapper := next_wrapper w; db := db w; clock := clock w;
          exec := exec w; log := log w ++ result.2; crawls := S (crawls w);
          sleeps := sleeps w |}).
Proof.
  unfold do_run_with_capture.
  by destruct (run_with_capture _ _ _) as [[[? ?] ?] ?].
Qed.

Lemma do_save_batch_run p ps cd md w :
  do_save_batch p ps cd md w
    = let result := save_batch p ps cd md (clock w) (db w) in
      (result.1.1.1,
       with_log (λ l, l ++ result.2) (with_store result.1.1.2 result.1.2 w)).
Proof.
  unfold do_save_batch. by destruct (save_batch _ _ _ _ _ _) as [[[? ?] ?] ?].
Qed.

Lemma do_create_indexes_run p w :
  do_create_indexes p w
    = let result := create_indexes p (db w) in
      (result.1.1,
       with_log (λ l, l ++ result.2) (with_store (clock w) result.1.2 w)).
Proof.
  unfold do_create_indexes. by destruct (create_indexes _ _) as [[? ?] ?].
Qed.

Lemma do_restore_run tokens w :
  do_restore tokens w
    = ((restore_config tokens (cfg w)).1,
       with_cfg (λ _, (restore_config tokens (cfg w)).2) w).
Proof. unfold do_restore. by destruct (restore_config _ _). Qed.

(** The configuration is touched by [do_inject] and [do_restore] only. *)
Lemma keeps_cfg_steps :
  (∀ events, preserves (keeps cfg) (emit events)) ∧
  (∀ r, preserves (keeps cfg) (read_task r)) ∧
  (∀ r f, preserves (keeps cfg) (update_task r f)) ∧
  preserves (keeps cfg) now ∧
  (∀ p posts cd md, preserves (keeps cfg) (do_save_batch p posts cd md)) ∧
  (∀ p, preserves (keeps cfg) (do_create_indexes p)) ∧
  (∀ E, preserves (keeps cfg) (sleep_between_platforms E)) ∧
  (∀ E r, preserves (keeps cfg) (sleep_between_rounds E r)) ∧
  (∀ p, preserves (keeps cfg) (make_wrapper p)) ∧
  (∀ E self, preserves (keeps cfg) (do_run_with_capture E self)).
Proof.
  repeat split; intros; intros w; unfold keeps; try done.
  - by rewrite do_save_batch_run.
  - by rewrite do_create_indexes_run.
  - unfold sleep_between_platforms. by destruct (platform_sleep _ _).
  - unfold sleep_between_rounds. by destruct (round_sleep _ _).
  - by rewrite do_run_with_capture_run.
Qed.

Lemma after_capture_keeps_cfg E request r round_idx kg platform result :
  preserves (keeps cfg) (after_capture E request r round_idx kg platform result).
Proof.
  destruct keeps_cfg_steps as (? & ? & ? & ? & ? & ? & ? & ? & ? & ?).
  unfold after_capture. eauto 20 with preserves.
Qed.

(** ** The configuration transaction *)

(** The token that [inject_config] makes is new, so the [restore_config]
    that gets it returns; it writes back every tracked field and the context
    variable. *)
Lemma restore_after_inject platform keywords crawler_config st :
  let '(tokens, opened) := inject_config platform keywords crawler_config st in
  (restore_config tokens opened).1 = Ok tt ∧
  tracked (config (restore_config tokens opened).2) = tracked (config st) ∧
  crawler_type_var (restore_config tokens opened).2 = crawler_type_var st.
Proof.
  destruct st as [c v used next].
  unfold inject_config, var_set, restore_config, var_reset, tracked.
  cbn [fst snd config token_used next_token token_ref crawler_type_token
       tokens_is_empty has_key original_platform orb negb].
  rewrite fn_lookup_insert. cbn. by destruct (SORT_TYPE c).
Qed.

(** The pool size is written by [inject_config] and never written back. *)
Lemma proxy_pool_count_stays_injected platform keywords crawler_config st :
  let '(tokens, opened) := inject_config platform keywords crawler_config st in
  IP_PROXY_POOL_COUNT (config (restore_config tokens opened).2)
    = ip_proxy_pool_count crawler_config.
Proof.
  destruct st as [c v used next].
  unfold inject_config, var_set, restore_config, var_reset.
  cbn [fst snd config token_used next_token token_ref crawler_type_token
       tokens_is_empty has_key original_platform orb negb].
  by rewrite fn_lookup_insert.
Qed.

Lemma restore_empty_tokens st : restore_config empty_tokens st = (Ok tt, st).
Proof. reflexivity. Qed.

(** A second [restore_config] with the same tokens raises [RuntimeError]:
    the token of the context variable was used by the first one.  The
    attributes of [config] are written before that. *)
Lemma restore_twice_raises platform keywords crawler_config st :
  let '(tokens, opened) := inject_config platform keywords crawler_config st in
  let closed := (restore_config tokens opened).2 in
  (restore_config tokens closed).1
    = Raise (Exception "Token has already been used once") ∧
  tracked (config (restore_config tokens closed).2) = tracked (config st).
Proof.
  destruct st as [c v used next].
  unfold inject_config, var_set, restore_config, var_reset, tracked.
  cbn [fst snd config token_used next_token token_ref crawler_type_token
       tokens_is_empty has_key original_platform orb negb].
  rewrite fn_lookup_insert.
  cbn [fst snd config token_used next_token token_ref crawler_type_token
       tokens_is_empty has_key original_platform orb negb].
  rewrite fn_lookup_insert. cbn. by destruct (SORT_TYPE c).
Qed.

(** The state in which the handler of line 350 leaves the configuration. *)
Lemma platform_except_cfg p msg w : cfg (platform_except p msg w).2 = cfg w.
Proof. reflexivity. Qed.

(** The configuration after a platform step whose Crawler raises nothing
    that escapes [run_with_capture]: the one [restore_config] wrote from the
    tokens of [inject_config], on every way out of the [try]. *)
Lemma platform_try_cfg E request r round_idx kg platform w :
  escapes (crawler_exception
             (crawler E (crawls w)
                (inject_config platform kg (request_config request) (cfg w)).2))
    = false →
  cfg (try_except (platform_try E request r round_idx kg platform)
                  (platform_except platform) w).2
    = (restore_config
         (inject_config platform kg (request_config request) (cfg w)).1
         (inject_config platform kg (request_config request) (cfg w)).2).2.
Proof.
  intros Hrun.
  unfold try_except, platform_try. rewrite bind_run. unfold do_inject.
  destruct (inject_config platform kg (request_config request) (cfg w))
    as [tokens opened].
  cbn [fst snd] in *. step. unfold make_wrapper. step.
  rewrite do_run_with_capture_run. cbv zeta.
  cbv [with_cfg]. cbn [cfg TaskExecutor.stores crawls].
  match goal with |- context [run_with_capture ?run ?self ?st] =>
    destruct (run_with_capture_returns run self st Hrun) as [result Hres];
    destruct (run_with_capture run self st) as [[[o self'] stores'] evs]
  end.
  cbn [fst snd] in *. subst o. step. rewrite do_restore_run. cbn [cfg].
  destruct (restore_config tokens opened) as [[[]|e] closed]; cbn [fst snd].
  - step.
    match goal with |- context [after_capture E request r round_idx kg platform result ?w3] =>
      pose proof (after_capture_keeps_cfg E request r round_idx kg platform result w3)
        as Htail;
      destruct (after_capture E request r round_idx kg platform result w3)
        as [[[]|e] w4]
    end; unfold keeps in Htail; cbn [fst snd cfg with_cfg] in Htail.
    + done.
    + destruct (caught e); [rewrite platform_except_cfg|]; done.
  - step. destruct (caught e); [rewrite platform_except_cfg|]; done.
Qed.

Lemma platform_step_cfg E request r round_idx kg platform w :
  escapes (crawler_exception
             (crawler E (crawls w)
                (inject_config platform kg (request_config request) (cfg w)).2))
    = false →
  cfg (platform_step E request r round_idx kg platform w).2
    = (restore_config
         (inject_config platform kg (request_config request) (cfg w)).1
         (inject_config platform kg (request_config request) (cfg w)).2).2.
Proof.
  intros Hrun.
  unfold platform_step. rewrite bind_run. unfold update_task at 1. step.
  unfold emit at 1. step. by rewrite platform_try_cfg.
Qed.

(** C1. Every tracked field of the configuration has, after the close of a
    transaction, the value it had before the matching open: for
    [restore_config] on the tokens of [inject_config], which returns; and
    for the per-platform step of the task loop, where the close runs
    whenever control comes back from [run_with_capture], whatever the
    Crawler raised inside it and whatever the calls after it do.  (When the
    Crawler raises an exception that does not derive from [Exception],
    control does not come back and no close runs.) *)
Theorem config_restored_after_transaction :
  (∀ (p : string) (keywords : list string) (crawler_config : CrawlerConfig)
     (st : CfgState),
     (restore_config (inject_config p keywords crawler_config st).1
        (inject_config p keywords crawler_config st).2).1 = Ok tt ∧
     tracked (config (restore_config (inject_config p keywords crawler_config st).1
                        (inject_config p keywords crawler_config st).2).2)
       = tracked (config st)) ∧
  (∀ (E : Env) (request : CrawlRequest) (task_status round_idx : nat)
     (keyword_group : list string) (p : string) (w : World),
     escapes (crawler_exception
                (crawler E (crawls w)
                   (inject_config p keyword_group (request_config request) (cfg w)).2))
       = false →
     tracked (config (cfg (platform_step E request task_status round_idx
                             keyword_group p w).2))
       = tracked (config (cfg w))).
Proof.
  split.
  - intros p keywords crawler_config st.
    pose proof (restore_after_inject p keywords crawler_config st) as H.
    destruct (inject_config _ _ _ _). split; apply H.
  - intros E request task_status round_idx keyword_group p w Hrun.
    rewrite platform_step_cfg by done.
    pose proof (restore_after_inject p keyword_group
                  (request_config request) (cfg w)) as H.
    destruct (inject_config _ _ _ _). apply H.
Qed.

Lemma config_restored_after_transaction_witness :
  tracked (config (cfg (platform_step Sample.environment Sample.request 0 1 ["a"]
                          "xhs" Sample.world).2))
    = tracked (config (cfg Sample.world)).
Proof.
  apply (proj2 config_restored_after_transaction Sample.environment Sample.request
           0 1 ["a"] "xhs" Sample.world).
  vm_compute. reflexivity.
Defined.

(** ** The capture hook after a run *)

(** Once the Crawler is created, the platform's [save_data] is bound to this
    wrapper's capture method, and stays so on both ways out of
    [run_with_capture]: nothing writes the saved original back. *)
Lemma capture_hook_stays_installed run self stores m original :
  create_raises run = None →
  store_modules (platform self) = Some m →
  stores m = Some original →
  (run_with_capture run self stores).1.2 m = Some (CaptureSave (wid self)).
Proof.
  intros Hc Hm Ho. unfold run_with_capture, run_with_capture_try.
  rewrite Hc. unfold _setup_data_capture. rewrite Hm, Ho.
  destruct (start_raises run) as [e|]; [destruct (caught e)|]; simpl;
    unfold set_save_data; apply fn_lookup_insert.
Qed.

(** When [start()] raises, the handler only logs: the browser context is not
    closed. *)
Lemma browser_left_open_when_start_raises run self stores e :
  create_raises run = None →
  start_raises run = Some e →
  BrowserClose (platform self) ∉ (run_with_capture run self stores).2.
Proof.
  intros Hc Hs. unfold run_with_capture, run_with_capture_try.
  rewrite Hc, Hs. destruct (_setup_data_capture self stores).
  destruct (caught e); cbn [snd]; intros H;
    [apply elem_of_cons in H as [H|H]; [discriminate|]|]; by apply elem_of_nil in H.
Qed.

(** C3. The claim: after [run_with_capture], on a normal return and on a
    raise, the store module's [save_data] is the original function again and
    the browser is released.  The code at the failing input: for a wrapper on
    ["xhs"] whose store module has its own [save_data], the attribute is still
    the wrapper's capture method after a run that returns and after a run
    whose [start()] raises; and in the raising run the browser context is not
    closed (the trace has the failure line only), while the returning run
    closes it. *)
Theorem run_with_capture_leaves_hook_installed :
  let self := new_wrapper 7 "xhs" in
  Sample.stores xhs_store = Some OriginalSave ∧
  (run_with_capture Sample.run_ok self Sample.stores).1.2 xhs_store
    = Some (CaptureSave 7) ∧
  (run_with_capture Sample.run_raising self Sample.stores).1.2 xhs_store
    = Some (CaptureSave 7) ∧
  (run_with_capture Sample.run_ok self Sample.stores).2
    = [BrowserClose "xhs"; LogCrawlCompleted "xhs" 1] ∧
  browser_context Sample.run_raising = Some None ∧
  (run_with_capture Sample.run_raising self Sample.stores).2
    = [LogCrawlFailed "xhs" "login failed"].
Proof. vm_compute. repeat split. Qed.

(** ** Admission *)

Lemma is_running_spec ex :
  is_running ex = true ↔ ∃ t, tracked_task ex = Some t ∧ status t = running.
Proof.
  unfold is_running. destruct (tracked_task ex) as [t|].
  - rewrite bool_decide_eq_true. split.
    + intros Hs. by exists t.
    + by intros (t' & [= <-] & Hs).
  - split; [done|]. by intros (t' & [=] & _).
Qed.

Lemma execute_crawl_task_busy fresh_uuid request ex :
  is_running ex = true →
  execute_crawl_task fresh_uuid request ex
    = (Raise (Exception "Task queue is full. Another task is currently running."), ex).
Proof. unfold execute_crawl_task. by intros ->. Qed.

Lemma execute_crawl_task_admits fresh_uuid request ex :
  is_running ex = false →
  execute_crawl_task fresh_uuid request ex
    = (Ok (choose_task_id (request_task_id request) fresh_uuid),
       {| tasks := <[next_ref ex :=
                       new_task_status
                         (choose_task_id (request_task_id request) fresh_uuid)
                         (length (keyword_groups request))]> (tasks ex);
          next_ref := S (next_ref ex);
          _current_task := Some (next_ref ex);
          spawned := spawned ex ++ [(request, next_ref ex)] |}).
Proof. unfold execute_crawl_task. by intros ->. Qed.

(** C4, as stated, fails on the returned identifier: a caller-supplied
    identifier that is the empty string is present, yet the identifier
    returned is the generated one. *)
Lemma submit_returns_supplied_id_counterexample :
  request_task_id Sample.request_empty_id = Some "" ∧
  (execute_crawl_task Sample.uuid Sample.request_empty_id Sample.executor).1
    = Ok Sample.uuid ∧
  (execute_crawl_task Sample.uuid Sample.request_empty_id Sample.executor).1
    ≠ Ok "".
Proof. vm_compute. repeat split. discriminate. Qed.

(** C4, amended. [execute_crawl_task] fails with the busy error exactly when
    the tracked task's status is [running], and then leaves the executor as it
    was.  Otherwise it returns the caller's identifier when one is supplied
    and is not the empty string, and a generated one if not; the new task
    object has this identifier, status [pending], [current_round] 0,
    [progress] 0.0 and as many rounds as the request has keyword groups; it is
    installed in the slot, and the background unit is handed over for it. *)
Theorem submit_admission (fresh_uuid : string) (request : CrawlRequest)
    (ex : ExecState) :
  let result := execute_crawl_task fresh_uuid request ex in
  let id := match request_task_id request with
            | Some s => if decide (s = "") then fresh_uuid else s
            | None => fresh_uuid
            end in
  ((∃ msg, result.1 = Raise msg) ↔
   (∃ t, tracked_task ex = Some t ∧ status t = running)) ∧
  ((∃ msg, result.1 = Raise msg) → result.2 = ex) ∧
  ((∀ msg, result.1 ≠ Raise msg) →
   result.1 = Ok id ∧
   _current_task result.2 = Some (next_ref ex) ∧
   tasks result.2 (next_ref ex)
     = {| task_id := id; total_rounds := length (keyword_groups request);
          current_round := 0; current_platform := None; status := pending;
          progress := 0%float; error_message := None; start_time := None;
          end_time := None |} ∧
   (∀ r, r ≠ next_ref ex → tasks result.2 r = tasks ex r) ∧
   spawned result.2 = spawned ex ++ [(request, next_ref ex)]).
Proof.
  intros result id.
  assert (Hid : choose_task_id (request_task_id request) fresh_uuid = id).
  { unfold choose_task_id, id. destruct (request_task_id request) as [s|]; [|done].
    destruct (decide (s = "")) as [->|Hne]; [done|].
    by apply String.eqb_neq in Hne as ->. }
  rewrite <- is_running_spec. unfold result.
  destruct (is_running ex) eqn:Hrun.
  - rewrite execute_crawl_task_busy by done. simpl.
    split; [naive_solver|]. split; [done|].
    intros H.
    by destruct (H (Exception "Task queue is full. Another task is currently running.")).
  - rewrite execute_crawl_task_admits by done. simpl. rewrite Hid.
    split; [split; [by intros [? ?]|done]|].
    split; [by intros [? ?]|]. intros _.
    split; [done|]. split; [done|].
    split; [by rewrite fn_lookup_insert|].
    split; [|done]. intros r Hr. by rewrite fn_lookup_insert_ne.
Qed.

Lemma submit_admission_witness :
  (execute_crawl_task Sample.uuid Sample.request Sample.executor).1 = Ok "task-1" ∧
  _current_task (execute_crawl_task Sample.uuid Sample.request Sample.executor).2
    = Some 0.
Proof.
  destruct (submit_admission Sample.uuid Sample.request Sample.executor)
    as (_ & _ & H).
  destruct H as (H1 & H2 & _).
  - intros msg. vm_compute. discriminate.
  - split; [exact H1 | exact H2].
Defined.

(** C10. Only a [running] tracked task blocks admission: when the tracked
    task is [pending], a further [execute_crawl_task] does not fail; it
    creates a new task object and puts it in the slot in place of the pending
    one, which stays as it was but is no longer tracked. *)
Theorem submit_replaces_pending_task (fresh_uuid : string) (request : CrawlRequest)
    (ex : ExecState) (current : nat) :
  _current_task ex = Some current →
  status (tasks ex current) = pending →
  current < next_ref ex →
  ∃ id ex',
    execute_crawl_task fresh_uuid request ex = (Ok id, ex') ∧
    _current_task ex' = Some (next_ref ex) ∧
    _current_task ex' ≠ Some current ∧
    tracked_task ex'
      = Some (new_task_status id (length (keyword_groups request))) ∧
    tasks ex' current = tasks ex current.
Proof.
  intros Hcur Hpending Hlt.
  assert (Hrun : is_running ex = false).
  { unfold is_running, tracked_task. rewrite Hcur. simpl. rewrite Hpending.
    by apply bool_decide_eq_false. }
  rewrite execute_crawl_task_admits by done.
  eexists _, _. split; [done|]. simpl.
  split; [done|]. split; [intros [= Heq]; lia|].
  split.
  - unfold tracked_task. simpl. by rewrite fn_lookup_insert.
  - apply fn_lookup_insert_ne. lia.
Qed.

Lemma submit_replaces_pending_task_witness :
  let ex1 := (execute_crawl_task Sample.uuid Sample.request Sample.executor).2 in
  ∃ id ex2,
    execute_crawl_task Sample.uuid Sample.request' ex1 = (Ok id, ex2) ∧
    _current_task ex1 = Some 0 ∧ _current_task ex2 = Some 1.
Proof.
  destruct (submit_replaces_pending_task Sample.uuid Sample.request'
              (execute_crawl_task Sample.uuid Sample.request Sample.executor).2 0)
    as (id & ex2 & H & Hslot & _);
    [reflexivity | reflexivity | vm_compute; lia |].
  exists id, ex2. split; [exact H|]. split; [reflexivity | exact Hslot].
Defined.

(** ** The task objects and the slot during a background unit *)

Lemma setters_stable :
  (∀ s, stable (set_status s)) ∧ (∀ x, stable (set_start_time x)) ∧
  (∀ x, stable (set_end_time x)) ∧ (∀ r, stable (set_current_round r)) ∧
  (∀ p, stable (set_current_platform p)) ∧ (∀ x, stable (set_progress x)) ∧
  (∀ e, stable (set_error_message e)).
Proof. repeat split. Qed.

Section ExecFrame.
Context {X : Type} (obs : ExecState → X).
Hypothesis obs_assign : ∀ r f ex, stable f → obs (assign r f ex) = obs ex.

Local Abbreviation O := (keeps (λ w, obs (exec w))).

Lemma exec_frame_steps :
  (∀ events, preserves O (emit events)) ∧
  (∀ r, preserves O (read_task r)) ∧
  preserves O now ∧
  (∀ p posts cd md, preserves O (do_save_batch p posts cd md)) ∧
  (∀ p, preserves O (do_create_indexes p)) ∧
  (∀ E, preserves O (sleep_between_platforms E)) ∧
  (∀ E r, preserves O (sleep_between_rounds E r)) ∧
  (∀ p, preserves O (make_wrapper p)) ∧
  (∀ E self, preserves O (do_run_with_capture E self)) ∧
  (∀ p kg cc, preserves O (do_inject p kg cc)) ∧
  (∀ tokens, preserves O (do_restore tokens)) ∧
  (∀ r f, stable f → preserves O (update_task r f)).
Proof.
  repeat split; intros; intros w;
    rewrite ?do_save_batch_run, ?do_create_indexes_run, ?do_run_with_capture_run,
      ?do_restore_run;
    unfold keeps, sleep_between_platforms, sleep_between_rounds, do_inject,
      update_task;
    repeat case_match; simpl; try done.
  by apply obs_assign.
Qed.

Lemma platform_step_exec_frame E request r round_idx kg p :
  preserves O (platform_step E request r round_idx kg p).
Proof.
  destruct exec_frame_steps as (? & ? & ? & ? & ? & ? & ? & ? & ? & ? & ? & ?).
  destruct setters_stable as (? & ? & ? & ? & ? & ? & ?).
  unfold platform_step, platform_try, platform_except, after_capture.
  eauto 30 with preserves.
Qed.

Lemma platforms_loop_exec_frame E request r round_idx kg todo :
  preserves O (platforms_loop E request r round_idx kg todo).
Proof.
  induction todo as [|p rest IH]; simpl.
  - apply preserves_ret. apply keeps_refl.
  - apply preserves_bind; [apply keeps_trans | apply platform_step_exec_frame | done].
Qed.

Lemma round_step_exec_frame E request r round_idx kg :
  preserves O (round_step E request r round_idx kg).
Proof.
  destruct exec_frame_steps as (? & ? & ? & ? & ? & ? & ? & ? & ? & ? & ? & ?).
  destruct setters_stable as (? & ? & ? & ? & ? & ? & ?).
  pose proof platforms_loop_exec_frame.
  unfold round_step, update_progress. eauto 30 with preserves.
Qed.

Lemma rounds_loop_exec_frame E request r round_idx todo :
  preserves O (rounds_loop E request r round_idx todo).
Proof.
  revert round_idx. induction todo as [|kg rest IH]; intros round_idx; simpl.
  - apply preserves_ret. apply keeps_refl.
  - apply preserves_bind; [apply keeps_trans | apply round_step_exec_frame | done].
Qed.

Lemma background_exec_frame E request r :
  preserves O (try_except (background_try E request r) (background_except r)).
Proof.
  destruct exec_frame_steps as (? & ? & ? & ? & ? & ? & ? & ? & ? & ? & ? & ?).
  destruct setters_stable as (? & ? & ? & ? & ? & ? & ?).
  pose proof rounds_loop_exec_frame.
  unfold background_try, background_start, background_complete, background_except.
  eauto 40 with preserves.
Qed.

End ExecFrame.

Lemma slot_assign r f ex : stable f → _current_task (assign r f ex) = _current_task ex.
Proof. done. Qed.

Lemma task_id_assign r' r f ex :
  stable f → task_id (tasks (assign r f ex) r') = task_id (tasks ex r').
Proof.
  intros Hf. simpl. destruct (decide (r = r')) as [->|Hne].
  - rewrite fn_lookup_alter. apply Hf.
  - by rewrite fn_lookup_alter_ne.
Qed.

Lemma total_rounds_assign r' r f ex :
  stable f → total_rounds (tasks (assign r f ex) r') = total_rounds (tasks ex r').
Proof.
  intros Hf. simpl. destruct (decide (r = r')) as [->|Hne].
  - rewrite fn_lookup_alter. apply Hf.
  - by rewrite fn_lookup_alter_ne.
Qed.

(** ** The task objects during the rounds *)

Section TaskFrame.
Context {X : Type} (obs : ExecState → X) (r : nat).
Context (minor : (TaskStatus → TaskStatus) → Prop).
Hypothesis obs_assign : ∀ f ex, minor f → obs (assign r f ex) = obs ex.
Hypothesis minor_round : ∀ i, minor (set_current_round i).
Hypothesis minor_platform : ∀ p, minor (set_current_platform p).
Hypothesis minor_progress : ∀ x, minor (set_progress x).

Local Abbreviation T := (keeps (λ w, obs (exec w))).

Lemma task_frame_steps :
  (∀ events, preserves T (emit events)) ∧
  (∀ r', preserves T (read_task r')) ∧
  preserves T now ∧
  (∀ p ps cd md, preserves T (do_save_batch p ps cd md)) ∧
  (∀ p, preserves T (do_create_indexes p)) ∧
  (∀ E, preserves T (sleep_between_platforms E)) ∧
  (∀ E i, preserves T (sleep_between_rounds E i)) ∧
  (∀ p, preserves T (make_wrapper p)) ∧
  (∀ E self, preserves T (do_run_with_capture E self)) ∧
  (∀ p kg cc, preserves T (do_inject p kg cc)) ∧
  (∀ tokens, preserves T (do_restore tokens)) ∧
  (∀ f, minor f → preserves T (update_task r f)).
Proof.
  repeat split; intros; intros w;
    rewrite ?do_save_batch_run, ?do_create_indexes_run, ?do_run_with_capture_run,
      ?do_restore_run;
    unfold keeps, sleep_between_platforms, sleep_between_rounds, do_inject,
      update_task;
    repeat case_match; simpl; try done.
  by apply obs_assign.
Qed.

Lemma platform_step_task_frame E request i kg p :
  preserves T (platform_step E request r i kg p).
Proof.
  destruct task_frame_steps as (? & ? & ? & ? & ? & ? & ? & ? & ? & ? & ? & ?).
  unfold platform_step, platform_try, platform_except, after_capture.
  eauto 30 with preserves.
Qed.

Lemma platforms_loop_task_frame E request i kg todo :
  preserves T (platforms_loop E request r i kg todo).
Proof.
  induction todo as [|p rest IH]; simpl.
  - apply preserves_ret. apply keeps_refl.
  - apply preserves_bind; [apply keeps_trans | apply platform_step_task_frame | done].
Qed.

Lemma round_step_task_frame E request i kg :
  preserves T (round_step E request r i kg).
Proof.
  destruct task_frame_steps as (? & ? & ? & ? & ? & ? & ? & ? & ? & ? & ? & ?).
  pose proof platforms_loop_task_frame.
  unfold round_step, update_progress. eauto 30 with preserves.
Qed.

Lemma rounds_loop_task_frame E request i todo :
  preserves T (rounds_loop E request r i todo).
Proof.
  revert i. induction todo as [|kg rest IH]; intros i; simpl.
  - apply preserves_ret. apply keeps_refl.
  - apply preserves_bind; [apply keeps_trans | apply round_step_task_frame | done].
Qed.

End TaskFrame.

(** The rounds never write the status of a task. *)
Lemma rounds_loop_status E request r i todo r' w :
  status (tasks (exec (rounds_loop E request r i todo w).2) r')
    = status (tasks (exec w) r').
Proof.
  apply (rounds_loop_task_frame (λ ex, status (tasks ex r')) r
           (λ f, ∀ t, status (f t) = status t)); try done.
  intros f ex Hf. simpl. destruct (decide (r = r')) as [->|Hne].
  - by rewrite fn_lookup_alter.
  - by rewrite fn_lookup_alter_ne.
Qed.

Lemma rounds_loop_slot E request r i todo w :
  _current_task (exec (rounds_loop E request r i todo w).2)
    = _current_task (exec w).
Proof.
  by apply (rounds_loop_task_frame _current_task r (λ _, True)).
Qed.

(** The rounds write neither the status, nor the error message, nor the end
    time of a task. *)
Lemma rounds_loop_terminal_fields E request r i todo w :
  let t' := tasks (exec (rounds_loop E request r i todo w).2) r in
  let t := tasks (exec w) r in
  status t' = status t ∧ error_message t' = error_message t ∧
  end_time t' = end_time t.
Proof.
  assert (H : preserves
                (keeps (λ w, (status (tasks (exec w) r),
                              error_message (tasks (exec w) r),
                              end_time (tasks (exec w) r))))
                (rounds_loop E request r i todo)).
  { apply (rounds_loop_task_frame
             (λ ex, (status (tasks ex r), error_message (tasks ex r),
                     end_time (tasks ex r))) r
             (λ f, ∀ t, status (f t) = status t ∧
                        error_message (f t) = error_message t ∧
                        end_time (f t) = end_time t)); try done.
    intros f ex Hf. simpl. rewrite fn_lookup_alter.
    by destruct (Hf (tasks ex r)) as (-> & -> & ->). }
  specialize (H w). unfold keeps in H. by injection H.
Qed.

(** ** The platforms a background unit processes *)

Lemma processed_app l1 l2 : processed (l1 ++ l2) = processed l1 ++ processed l2.
Proof. apply omap_app. Qed.

Lemma run_with_capture_processed run self stores :
  processed (run_with_capture run self stores).2 = [].
Proof.
  unfold run_with_capture, run_with_capture_try.
  destruct (create_raises run) as [e|]; [by destruct (caught e)|].
  destruct (_setup_data_capture self stores).
  destruct (start_raises run) as [e|]; [by destruct (caught e)|].
  by destruct (browser_context run).
Qed.

Lemma save_post_processed platform post_data cs metadata clk db :
  processed (save_post_with_comments platform post_data cs metadata clk db).2 = [].
Proof.
  unfold save_post_with_comments, save_post_with_comments_try.
  destruct (get_collection platform db) as [?|e]; [|by destruct (caught e)].
  destruct (negb (truthy (derive_post_id post_data))); [done|].
  unfold datetime_now. cbv beta iota.
  destruct (collection_update_one _ _ _ _) as [[?|e] ?]; [done|].
  by destruct (caught e).
Qed.

Lemma save_batch_loop_processed platform posts_data cd metadata n clk db evs :
  processed (save_batch_loop platform posts_data cd metadata n clk db evs).2
    = processed evs.
Proof.
  revert n clk db evs.
  induction posts_data as [|p rest IH]; intros n clk db evs; simpl; [done|].
  destruct (negb (truthy (derive_post_id p))); [apply IH|].
  pose proof (save_post_processed platform p
                (default [] (cd !! py_str (derive_post_id p))) metadata clk db) as Hp.
  destruct (save_post_with_comments _ _ _ _ _ _) as [[[[ok|e] clk'] db'] evs'];
    cbn [snd] in *; rewrite ?IH, processed_app, Hp; apply app_nil_r.
Qed.

Lemma save_batch_processed platform posts_data cd metadata clk db :
  processed (save_batch platform posts_data cd metadata clk db).2 = [].
Proof.
  unfold save_batch.
  pose proof (save_batch_loop_processed platform posts_data cd metadata 0 clk db [])
    as H.
  destruct (save_batch_loop _ _ _ _ _ _ _ _) as [[[[n|e] clk'] db'] evs];
    cbn [snd] in *; [by rewrite processed_app, H | done].
Qed.

Lemma create_indexes_processed platform db :
  processed (create_indexes platform db).2 = [].
Proof.
  unfold create_indexes.
  destruct (create_indexes_try platform db) as [[?|e] ?]; [done|].
  by destruct (caught e).
Qed.

Lemma processed_frame_steps :
  (∀ events, processed events = [] →
             preserves (keeps (λ w, processed (log w))) (emit events)) ∧
  (∀ r, preserves (keeps (λ w, processed (log w))) (read_task r)) ∧
  (∀ r f, preserves (keeps (λ w, processed (log w))) (update_task r f)) ∧
  preserves (keeps (λ w, processed (log w))) now ∧
  (∀ p ps cd md,
     preserves (keeps (λ w, processed (log w))) (do_save_batch p ps cd md)) ∧
  (∀ p, preserves (keeps (λ w, processed (log w))) (do_create_indexes p)) ∧
  (∀ E, preserves (keeps (λ w, processed (log w))) (sleep_between_platforms E)) ∧
  (∀ E r, preserves (keeps (λ w, processed (log w))) (sleep_between_rounds E r)) ∧
  (∀ p, preserves (keeps (λ w, processed (log w))) (make_wrapper p)) ∧
  (∀ E self, preserves (keeps (λ w, processed (log w))) (do_run_with_capture E self)) ∧
  (∀ p kg cc, preserves (keeps (λ w, processed (log w))) (do_inject p kg cc)) ∧
  (∀ tokens, preserves (keeps (λ w, processed (log w))) (do_restore tokens)).
Proof.
  split; [|split; [|split; [|split; [|split; [|split; [|split; [|split;
    [|split; [|split; [|split]]]]]]]]]]; intros; intros w; unfold keeps.
  - simpl. rewrite processed_app, H. apply app_nil_r.
  - done.
  - done.
  - done.
  - rewrite do_save_batch_run. simpl.
    rewrite processed_app, save_batch_processed. apply app_nil_r.
  - rewrite do_create_indexes_run. simpl.
    rewrite processed_app, create_indexes_processed. apply app_nil_r.
  - unfold sleep_between_platforms. by destruct (platform_sleep _ _).
  - unfold sleep_between_rounds. by destruct (round_sleep _ _).
  - done.
  - rewrite do_run_with_capture_run. simpl.
    rewrite processed_app, run_with_capture_processed. apply app_nil_r.
  - unfold do_inject. by destruct (inject_config _ _ _ _).
  - by rewrite do_restore_run.
Qed.

#[local] Hint Extern 1 (processed _ = []) => reflexivity : preserves.

Lemma platform_try_processed E request r round_idx kg p :
  preserves (keeps (λ w, processed (log w)))
    (try_except (platform_try E request r round_idx kg p) (platform_except p)).
Proof.
  destruct processed_frame_steps as (? & ? & ? & ? & ? & ? & ? & ? & ? & ? & ? & ?).
  unfold platform_try, platform_except, after_capture.
  eauto 30 with preserves.
Qed.

(** ** Exceptions that escape the handlers *)

Lemma caught_escapes e : caught e = None ↔ escapes (Some e) = true.
Proof. by destruct e. Qed.

(** An exception leaves a call on the database only when the server raised
    it and [except Exception] does not catch it; the server stays the same. *)
Lemma round_trip_server db : server_raises (round_trip db).2 = server_raises db.
Proof. unfold round_trip. by destruct (server_raises db (round_trips db)). Qed.

Lemma save_post_server platform post_data cs metadata clk db :
  server_raises (save_post_with_comments platform post_data cs metadata clk db).1.2
    = server_raises db.
Proof.
  destruct (fault db) as [msg|] eqn:Hf.
  { by rewrite (save_without_connection _ _ _ _ _ _ msg). }
  destruct (truthy (derive_post_id post_data)) eqn:Hid.
  2: { by rewrite save_without_id. }
  rewrite save_with_id by done. cbv zeta.
  match goal with |- context [collection_update_one ?a ?b ?c ?d] =>
    pose proof (collection_update_one_keeps a b c d) as (_ & H & _);
    destruct (collection_update_one a b c d) as [[u|e] db']
  end; cbn [fst snd] in *; [done|]. by destruct (caught e).
Qed.

Lemma save_post_raises platform post_data cs metadata clk db e :
  (save_post_with_comments platform post_data cs metadata clk db).1.1.1 = Raise e →
  server_raises db (round_trips db) = Some e ∧ caught e = None.
Proof.
  destruct (fault db) as [msg|] eqn:Hf.
  { by rewrite (save_without_connection _ _ _ _ _ _ msg). }
  destruct (truthy (derive_post_id post_data)) eqn:Hid.
  2: { by rewrite save_without_id. }
  rewrite save_with_id by done. cbv zeta.
  unfold collection_update_one, round_trip.
  destruct (encodable _); [|done].
  destruct (server_raises db (round_trips db)) as [e'|]; cbn [fst snd].
  - destruct (caught e') eqn:Hc; cbn [fst]; [done|]. by intros [= <-].
  - by destruct (update_one _ _ _).
Qed.

Lemma save_batch_loop_server platform posts_data cd metadata n clk db evs :
  server_raises (save_batch_loop platform posts_data cd metadata n clk db evs).1.2
    = server_raises db.
Proof.
  revert n clk db evs.
  induction posts_data as [|p rest IH]; intros n clk db evs; simpl; [done|].
  destruct (negb (truthy (derive_post_id p))); [apply IH|].
  pose proof (save_post_server platform p
                (default [] (cd !! py_str (derive_post_id p))) metadata clk db) as Hp.
  destruct (save_post_with_comments _ _ _ _ _ _) as [[[[ok|e] clk'] db'] evs'];
    cbn [fst snd] in *; [by rewrite IH | done].
Qed.

Lemma save_batch_loop_raises platform posts_data cd metadata n clk db evs e :
  (save_batch_loop platform posts_data cd metadata n clk db evs).1.1.1 = Raise e →
  ∃ k, server_raises db k = Some e ∧ caught e = None.
Proof.
  revert n clk db evs.
  induction posts_data as [|p rest IH]; intros n clk db evs; simpl; [done|].
  destruct (negb (truthy (derive_post_id p))); [apply IH|].
  pose proof (save_post_server platform p
                (default [] (cd !! py_str (derive_post_id p))) metadata clk db) as Hs.
  pose proof (save_post_raises platform p
                (default [] (cd !! py_str (derive_post_id p))) metadata clk db) as Hp.
  destruct (save_post_with_comments _ _ _ _ _ _) as [[[[ok|e'] clk'] db'] evs'];
    cbn [fst snd] in *.
  - intros H. apply IH in H as (k & H & Hc). rewrite Hs in H. eauto.
  - intros [= ->]. destruct (Hp e eq_refl). eauto.
Qed.

Lemma save_batch_server platform posts_data cd metadata clk db :
  server_raises (save_batch platform posts_data cd metadata clk db).1.2
    = server_raises db.
Proof.
  unfold save_batch.
  pose proof (save_batch_loop_server platform posts_data cd metadata 0 clk db []) as H.
  by destruct (save_batch_loop _ _ _ _ _ _ _ _) as [[[[n|e] clk'] db'] evs].
Qed.

Lemma save_batch_raises platform posts_data cd metadata clk db e :
  (save_batch platform posts_data cd metadata clk db).1.1.1 = Raise e →
  ∃ k, server_raises db k = Some e ∧ caught e = None.
Proof.
  unfold save_batch.
  pose proof (save_batch_loop_raises platform posts_data cd metadata 0 clk db []) as H.
  destruct (save_batch_loop _ _ _ _ _ _ _ _) as [[[[n|e'] clk'] db'] evs];
    cbn [fst snd] in *; [done|]. intros [= ->]. by apply H.
Qed.

Lemma create_index_server name key unique db :
  server_raises (create_index name key unique db).2 = server_raises db.
Proof.
  unfold create_index, round_trip.
  destruct (server_raises db (round_trips db)); cbn [fst snd]; [done|].
  by destruct (_ && _).
Qed.

Lemma create_index_raises name key unique db e :
  (create_index name key unique db).1 = Raise e →
  caught e = None → ∃ k, server_raises db k = Some e.
Proof.
  unfold create_index, round_trip.
  destruct (server_raises db (round_trips db)) as [e'|] eqn:Hs; cbn [fst snd].
  - intros [= ->] _. eauto.
  - destruct (_ && _); [|done]. by intros [= <-].
Qed.

Lemma create_indexes_try_server platform db :
  server_raises (create_indexes_try platform db).2 = server_raises db.
Proof.
  unfold create_indexes_try. destruct (get_collection platform db); [|done].
  pose proof (create_index_server (collection_name platform) "post_id" true db) as H1.
  destruct (create_index _ "post_id" _ _) as [[[]|e1] db1]; cbn [snd] in *; [|done].
  pose proof (create_index_server (collection_name platform) "updated_at" false db1)
    as H2.
  destruct (create_index _ "updated_at" _ _) as [[[]|e2] db2]; cbn [snd] in *;
    [|congruence].
  rewrite create_index_server. congruence.
Qed.

Lemma create_indexes_try_raises platform db e :
  (create_indexes_try platform db).1 = Raise e →
  caught e = None → ∃ k, server_raises db k = Some e.
Proof.
  unfold create_indexes_try, get_collection.
  destruct (fault db); [by intros [= <-]|].
  pose proof (create_index_server (collection_name platform) "post_id" true db) as S1.
  pose proof (create_index_raises (collection_name platform) "post_id" true db) as H1.
  destruct (create_index _ "post_id" _ _) as [[[]|e1] db1]; cbn [fst snd] in *.
  2: { intros [= ->]. by apply H1. }
  pose proof (create_index_server (collection_name platform) "updated_at" false db1)
    as S2.
  pose proof (create_index_raises (collection_name platform) "updated_at" false db1)
    as H2.
  destruct (create_index _ "updated_at" _ _) as [[[]|e2] db2]; cbn [fst snd] in *.
  2: { intros [= ->] Hc. destruct (H2 e eq_refl Hc) as [k Hk].
       rewrite S1 in Hk. eauto. }
  intros H Hc. apply create_index_raises in H as [k Hk]; [|done].
  rewrite S2, S1 in Hk. eauto.
Qed.

Lemma create_indexes_server platform db :
  server_raises (create_indexes platform db).1.2 = server_raises db.
Proof.
  unfold create_indexes.
  pose proof (create_indexes_try_server platform db) as H.
  destruct (create_indexes_try platform db) as [[[]|e] db']; [done|].
  by destruct (caught e).
Qed.

Lemma create_indexes_raises platform db e :
  (create_indexes platform db).1.1 = Raise e →
  ∃ k, server_raises db k = Some e ∧ caught e = None.
Proof.
  unfold create_indexes.
  pose proof (create_indexes_try_raises platform db) as H.
  destruct (create_indexes_try platform db) as [[[]|e'] db']; [done|].
  cbn [fst] in H. destruct (caught e') eqn:Hc; cbn [fst]; [done|].
  intros [= ->]. destruct (H e eq_refl Hc) as [k Hk]. eauto.
Qed.

(** *** Computations that return *)

Lemma returns_contained {A} (m : M A) : returns m → contained m.
Proof.
  intros Hm w Hw. destruct (Hm w Hw) as [Hw' [a Ha]]. split; [done|].
  intros msg. by rewrite Ha.
Qed.

Lemma returns_ret {A} (a : A) : returns (mret a).
Proof. intros w Hw. split; [done|]. by exists a. Qed.

Lemma returns_bind {A B} (m : M A) (k : A → M B) :
  returns m → (∀ a, returns (k a)) → returns (m ≫= k).
Proof.
  intros Hm Hk w Hw. rewrite bind_run. destruct (Hm w Hw) as [Hw' [a Ha]].
  destruct (m w) as [o w']. cbn [fst snd] in *. subst o. by apply Hk.
Qed.

Lemma contained_bind {A B} (m : M A) (k : A → M B) :
  contained m → (∀ a, contained (k a)) → contained (m ≫= k).
Proof.
  intros Hm Hk w Hw. rewrite bind_run. destruct (Hm w Hw) as [Hw' Hne].
  destruct (m w) as [[a|e] w']; cbn [fst snd] in *; [by apply Hk|].
  split; [done|]. intros msg [= ->]. by destruct (Hne msg).
Qed.

Lemma contained_if {A} (b : bool) (m1 m2 : M A) :
  contained m1 → contained m2 → contained (if b then m1 else m2).
Proof. by destruct b. Qed.

Lemma returns_try_except {A} (m : M A) (h : string → M A) :
  contained m → (∀ e, returns (h e)) → returns (try_except m h).
Proof.
  intros Hm Hh w Hw. unfold try_except. destruct (Hm w Hw) as [Hw' Hne].
  destruct (m w) as [[a|[msg|msg]] w']; cbn [fst snd caught] in *.
  - split; [done|]. by exists a.
  - by apply Hh.
  - by destruct (Hne msg).
Qed.

Create HintDb returns discriminated.

#[local] Hint Resolve returns_ret returns_bind contained_bind contained_if
  returns_try_except : returns.
#[local] Hint Resolve returns_contained | 10 : returns.

Lemma returns_steps :
  (∀ events, returns (emit events)) ∧
  (∀ r, returns (read_task r)) ∧
  (∀ r f, returns (update_task r f)) ∧
  returns now ∧
  (∀ p, returns (make_wrapper p)) ∧
  (∀ p kg cc, returns (do_inject p kg cc)) ∧
  (∀ p ps cd md, returns (do_save_batch p ps cd md)) ∧
  (∀ p, returns (do_create_indexes p)) ∧
  (∀ tokens, contained (do_restore tokens)).
Proof.
  split; [|split; [|split; [|split; [|split; [|split; [|split; [|split]]]]]]];
    intros; intros w Hw.
  - split; [done|]. by exists tt.
  - split; [done|]. eauto.
  - split; [done|]. by exists tt.
  - split; [done|]. unfold now, datetime_now. eauto.
  - split; [done|]. unfold make_wrapper. eauto.
  - unfold do_inject. destruct (inject_config _ _ _ _). split; [done|]. eauto.
  - rewrite do_save_batch_run. cbv zeta. cbn [fst snd]. split.
    + intros n. unfold with_log, with_store. cbn [db].
      rewrite save_batch_server. apply Hw.
    + destruct ((save_batch p ps cd md (clock w) (db w)).1.1.1) as [k|e] eqn:Ho;
        [eauto|].
      apply save_batch_raises in Ho as (k & Hk & Hc).
      apply caught_escapes in Hc. rewrite <- Hk in Hc. by rewrite Hw in Hc.
  - rewrite do_create_indexes_run. cbv zeta. cbn [fst snd]. split.
    + intros n. unfold with_log, with_store. cbn [db].
      rewrite create_indexes_server. apply Hw.
    + destruct ((create_indexes p (db w)).1.1) as [k|e] eqn:Ho; [eauto|].
      apply create_indexes_raises in Ho as (k & Hk & Hc).
      apply caught_escapes in Hc. rewrite <- Hk in Hc. by rewrite Hw in Hc.
  - rewrite do_restore_run. cbn [fst snd]. split; [done|].
    intros msg. unfold restore_config, var_reset.
    repeat case_match; cbn [fst]; done.
Qed.

Section Catchable.
Context (E : Env) (HE : catchable E).

Lemma do_run_with_capture_returns self : returns (do_run_with_capture E self).
Proof.
  intros w Hw. rewrite do_run_with_capture_run. cbv zeta. cbn [fst snd].
  split; [done|]. apply run_with_capture_returns, HE.
Qed.

Lemma sleep_between_platforms_contained : contained (sleep_between_platforms E).
Proof.
  intros w Hw. unfold sleep_between_platforms.
  pose proof (proj2 HE (sleeps w)) as Hs.
  destruct (platform_sleep E (sleeps w)) as [[msg|msg]|]; cbn [fst snd];
    split; done.
Qed.

Lemma platform_step_returns_in request r i kg p :
  returns (platform_step E request r i kg p).
Proof.
  destruct returns_steps as (? & ? & ? & ? & ? & ? & ? & ? & ?).
  pose proof do_run_with_capture_returns. pose proof sleep_between_platforms_contained.
  assert (returns (do_restore empty_tokens)).
  { intros w Hw. split; [done|]. by exists tt. }
  unfold platform_step, platform_try, platform_except, after_capture.
  eauto 40 with returns.
Qed.

End Catchable.

(** *** A platform step returns *)

Lemma platform_step_returns E request r round_idx kg p w :
  catchable E → uninterrupted w →
  (platform_step E request r round_idx kg p w).1 = Ok tt ∧
  uninterrupted (platform_step E request r round_idx kg p w).2.
Proof.
  intros HE Hw.
  destruct (platform_step_returns_in E HE request r round_idx kg p w Hw)
    as [Hw' [[] Ha]].
  by split.
Qed.

Lemma platform_step_processed E request r round_idx kg p w :
  processed (log (platform_step E request r round_idx kg p w).2)
    = processed (log w) ++ [p].
Proof.
  unfold platform_step. rewrite bind_run. unfold update_task at 1. step.
  unfold emit at 1. step.
  rewrite (platform_try_processed E request r round_idx kg p _).
  simpl. by rewrite processed_app.
Qed.

(** Every platform of the list is processed, in order, and the loop returns. *)
Lemma platforms_loop_spec E request r round_idx kg todo w :
  catchable E → uninterrupted w →
  (platforms_loop E request r round_idx kg todo w).1 = Ok tt ∧
  uninterrupted (platforms_loop E request r round_idx kg todo w).2 ∧
  processed (log (platforms_loop E request r round_idx kg todo w).2)
    = processed (log w) ++ todo.
Proof.
  intros HE. revert w. induction todo as [|p rest IH]; intros w Hw; simpl.
  - by rewrite app_nil_r.
  - rewrite bind_run.
    destruct (platform_step_returns E request r round_idx kg p w HE Hw)
      as [Hret Hw'].
    pose proof (platform_step_processed E request r round_idx kg p w) as Hlog.
    destruct (platform_step _ _ _ _ _ _ _) as [o w']. cbn [fst snd] in *. subst o.
    destruct (IH w' Hw') as (H1 & H2 & H3). split; [done|]. split; [done|].
    by rewrite H3, Hlog, <- app_assoc.
Qed.

(** ** Rounds *)

(** A round of a task with a positive number of rounds returns when its own
    sleep does not raise; it processes every platform of the request. *)
Lemma round_step_spec E request r i kg w :
  catchable E → uninterrupted w →
  total_rounds (tasks (exec w) r) ≠ 0 →
  round_sleep E i = None →
  (round_step E request r i kg w).1 = Ok tt ∧
  uninterrupted (round_step E request r i kg w).2 ∧
  total_rounds (tasks (exec (round_step E request r i kg w).2) r)
    = total_rounds (tasks (exec w) r) ∧
  processed (log (round_step E request r i kg w).2)
    = processed (log w) ++ platforms request.
Proof.
  intros HE Hw Hn Hsleep.
  destruct (round_step E request r i kg w) as [o w'] eqn:Hrun. cbn [fst snd].
  revert Hrun.
  unfold round_step. rewrite bind_run. unfold update_task at 1. step.
  unfold read_task at 1. step. unfold emit at 1. step.
  match goal with |- context [platforms_loop E request r i kg (platforms request) ?w1] =>
    destruct (platforms_loop_spec E request r i kg (platforms request) w1 HE)
      as (Hok & Hw2 & Hlog); [exact Hw|];
    pose proof (platforms_loop_exec_frame (λ ex, total_rounds (tasks ex r))
                  (total_rounds_assign r) E request r i kg (platforms request) w1)
      as Hrounds;
    destruct (platforms_loop E request r i kg (platforms request) w1) as [o2 w2]
  end.
  unfold keeps in Hrounds. simpl in Hok, Hlog, Hrounds. cbn [snd] in Hw2.
  subst o2. step.
  rewrite fn_lookup_alter in Hrounds. simpl in Hrounds.
  unfold update_progress. step. unfold read_task at 1. step.
  destruct (decide (total_rounds (tasks (exec w2) r) = 0)) as [Hz|_];
    [congruence|].
  unfold update_task at 1. step. unfold read_task at 1. step.
  rewrite processed_app, app_nil_r in Hlog.
  destruct (decide _); [unfold sleep_between_rounds; rewrite Hsleep|];
    intros [= <- <-]; simpl; rewrite fn_lookup_alter; done.
Qed.

Lemma rounds_loop_spec E request r todo i w :
  catchable E → uninterrupted w →
  (todo ≠ [] → total_rounds (tasks (exec w) r) ≠ 0) →
  (∀ j, round_sleep E j = None) →
  (rounds_loop E request r i todo w).1 = Ok tt ∧
  processed (log (rounds_loop E request r i todo w).2)
    = processed (log w) ++ concat (map (λ _, platforms request) todo).
Proof.
  intros HE. revert i w.
  induction todo as [|kg rest IH]; intros i w Hw Hn Hsleep; simpl.
  - by rewrite app_nil_r.
  - rewrite bind_run.
    destruct (round_step_spec E request r i kg w HE Hw)
      as (Hok & Hw' & Hrounds & Hlog); [by apply Hn | apply Hsleep |].
    destruct (round_step E request r i kg w) as [o w'].
    cbn [fst snd] in Hok, Hw', Hrounds, Hlog. subst o.
    destruct (IH (S i) w') as [H1 H2]; [done| |done|].
    { intros _. rewrite Hrounds. by apply Hn. }
    split; [done|]. by rewrite H2, Hlog, <- app_assoc.
Qed.

(** ** Start and end of a background unit *)

Lemma background_start_spec r w :
  let w' := (background_start r w).2 in
  (background_start r w).1 = Ok tt ∧
  log w' = log w ∧ cfg w' = cfg w ∧ crawls w' = crawls w ∧ db w' = db w ∧
  status (tasks (exec w') r) = running ∧
  error_message (tasks (exec w') r) = error_message (tasks (exec w) r) ∧
  end_time (tasks (exec w') r) = end_time (tasks (exec w) r) ∧
  (∀ r', total_rounds (tasks (exec w') r') = total_rounds (tasks (exec w) r')).
Proof.
  unfold background_start. rewrite bind_run. unfold update_task at 1. step.
  unfold now, datetime_now. step. unfold update_task. simpl.
  rewrite !fn_lookup_alter. simpl.
  repeat (split; [done|]). intros r'.
  change (total_rounds (tasks (assign r (set_start_time (reading (clock w) (ticks (clock w))))
                                 (assign r (set_status running) (exec w))) r')
          = total_rounds (tasks (exec w) r')).
  by rewrite !total_rounds_assign.
Qed.

Lemma background_complete_spec r w :
  let t := tasks (exec (background_complete r w).2) r in
  (background_complete r w).1 = Ok tt ∧
  status t = completed ∧ progress t = 100%float ∧ is_Some (end_time t) ∧
  processed (log (background_complete r w).2) = processed (log w).
Proof.
  unfold background_complete. rewrite bind_run. unfold update_task at 1. step.
  unfold update_task at 1. step. unfold now, datetime_now. step.
  unfold update_task, read_task, emit. step. simpl.
  rewrite !fn_lookup_alter. simpl. rewrite processed_app, app_nil_r. eauto.
Qed.

Lemma background_except_spec r e w :
  let t := tasks (exec (background_except r e w).2) r in
  (background_except r e w).1 = Ok tt ∧
  status t = failed ∧ error_message t = Some e ∧ is_Some (end_time t) ∧
  processed (log (background_except r e w).2) = processed (log w).
Proof.
  unfold background_except. rewrite bind_run. unfold update_task at 1. step.
  unfold update_task at 1. step. unfold now, datetime_now. step.
  unfold update_task, read_task, emit. step. simpl.
  rewrite !fn_lookup_alter. simpl. rewrite processed_app, app_nil_r. eauto.
Qed.

(** The outer [try] with its handler: what the rounds decide. *)
Lemma background_body_run E request r w :
  try_except (background_try E request r) (background_except r) w
    = match rounds_loop E request r 1 (keyword_groups request)
              (background_start r w).2 with
      | (Ok _, w') => background_complete r w'
      | (Raise e, w') =>
          match caught e with
          | Some msg => background_except r msg w'
          | None => (Raise e, w')
          end
      end.
Proof.
  unfold try_except, background_try. rewrite bind_run.
  destruct (background_start_spec r w) as (Hok & _).
  destruct (background_start r w) as [o w1]. cbn [fst] in Hok. subst o. step.
  cbn [snd].
  destruct (rounds_loop _ _ _ _ _ _) as [[[]|e] w2]; cbv beta iota; [|done].
  pose proof (background_complete_spec r w2) as (Hc & _).
  destruct (background_complete r w2) as [o w3]. cbn [fst] in Hc. by subst o.
Qed.

(** ** The end of a background unit *)

Lemma release_slot_tasks r ex : tasks (release_slot r ex) = tasks ex.
Proof.
  unfold release_slot. destruct (_current_task ex); [|done].
  by destruct (decide _).
Qed.

(** The slot after a whole background unit, from the state before it. *)
Lemma run_task_background_slot E request r w :
  _current_task (exec (_run_task_background E request r w).2)
    = match _current_task (exec w) with
      | Some current =>
          if decide (task_id (tasks (exec w) current) = task_id (tasks (exec w) r))
          then None else Some current
      | None => None
      end.
Proof.
  unfold _run_task_background, try_finally.
  pose proof (background_exec_frame _current_task slot_assign E request r w) as Hslot.
  pose proof (λ r', background_exec_frame (λ ex, task_id (tasks ex r'))
                      (task_id_assign r') E request r w) as Hid.
  destruct (try_except _ _ w) as [o w1]. unfold keeps in Hslot, Hid.
  simpl in *. unfold release_slot. rewrite Hslot.
  destruct (_current_task (exec w)) as [current|]; [|done].
  rewrite !Hid. by destruct (decide _).
Qed.

(** C5, as stated, fails on the release of the slot: a task that was replaced
    in the slot while it was pending runs to its end, and the slot still
    tracks the other task afterwards. *)
Lemma slot_not_cleared_counterexample :
  let ex1 := (execute_crawl_task Sample.uuid Sample.request Sample.executor).2 in
  let ex2 := (execute_crawl_task Sample.uuid Sample.request' ex1).2 in
  let final :=
    (_run_task_background Sample.environment Sample.request 0
       (with_exec (λ _, ex2) Sample.world)).2 in
  status (tasks (exec final) 0) = completed ∧
  _current_task (exec final) = Some 1 ∧
  _current_task (exec final) ≠ None.
Proof. vm_compute. repeat split. discriminate. Qed.

(** A background unit whose first Crawler is cancelled ends neither
    [completed] nor [failed]: [asyncio.CancelledError] leaves the unit, the
    status stays [running], and neither [error_message] nor [end_time] is
    set; the slot is cleared. *)
Lemma cancelled_unit_stays_running :
  let w :=
    with_exec (λ _, (execute_crawl_task Sample.uuid Sample.request Sample.executor).2)
      Sample.world in
  let result := _run_task_background Sample.environment_cancelled Sample.request 0 w in
  result.1 = Raise (BaseException "") ∧
  status (tasks (exec result.2) 0) = running ∧
  error_message (tasks (exec result.2) 0) = None ∧
  end_time (tasks (exec result.2) 0) = None ∧
  _current_task (exec result.2) = None.
Proof. vm_compute. repeat split. Qed.

(** C5, amended. When all rounds complete, the background unit returns and
    the task's status is [completed], its progress 100.0 and its [end_time]
    set.  When an exception that derives from [Exception] escapes the round
    loop, the unit returns and the status is [failed], [error_message] is the
    exception's message and [end_time] is set.  When an exception that does
    not derive from [Exception] escapes the round loop, the unit raises it,
    the status stays [running], and [error_message] and [end_time] stay as
    they were.  On all three paths the slot is cleared when it tracks a task
    with this task's identifier (so whenever it still tracks this task), and
    is left as it is when it tracks a task with another identifier. *)
Theorem background_unit_terminal_state (E : Env) (request : CrawlRequest)
    (task_status : nat) (w : World) :
  let rounds :=
    rounds_loop E request task_status 1 (keyword_groups request)
      (background_start task_status w).2 in
  let result := _run_task_background E request task_status w in
  let t := tasks (exec result.2) task_status in
  (rounds.1 = Ok tt →
   result.1 = Ok tt ∧
   status t = completed ∧ progress t = 100%float ∧ is_Some (end_time t)) ∧
  (∀ msg, rounds.1 = Raise (Exception msg) →
          result.1 = Ok tt ∧
          status t = failed ∧ error_message t = Some msg ∧ is_Some (end_time t)) ∧
  (∀ msg, rounds.1 = Raise (BaseException msg) →
          result.1 = Raise (BaseException msg) ∧
          status t = running ∧
          error_message t = error_message (tasks (exec w) task_status) ∧
          end_time t = end_time (tasks (exec w) task_status)) ∧
  (_current_task (exec w) = Some task_status →
   _current_task (exec result.2) = None) ∧
  _current_task (exec result.2)
    = match _current_task (exec w) with
      | Some current =>
          if decide (task_id (tasks (exec w) current)
                     = task_id (tasks (exec w) task_status))
          then None else Some current
      | None => None
      end.
Proof.
  intros rounds result t.
  pose proof (run_task_background_slot E request task_status w) as Hslot.
  fold result in Hslot.
  assert (Hshape :
            match rounds.1 with
            | Ok _ => result.1 = Ok tt ∧ status t = completed ∧
                      progress t = 100%float ∧ is_Some (end_time t)
            | Raise (Exception msg) =>
                result.1 = Ok tt ∧ status t = failed ∧
                error_message t = Some msg ∧ is_Some (end_time t)
            | Raise (BaseException msg) =>
                result.1 = Raise (BaseException msg) ∧ status t = running ∧
                error_message t = error_message (tasks (exec w) task_status) ∧
                end_time t = end_time (tasks (exec w) task_status)
            end).
  { unfold t, result, _run_task_background, try_finally.
    rewrite background_body_run. fold rounds.
    pose proof (rounds_loop_terminal_fields E request task_status 1
                  (keyword_groups request) (background_start task_status w).2)
      as Hkept.
    cbv zeta in Hkept. fold rounds in Hkept.
    destruct (background_start_spec task_status w)
      as (_ & _ & _ & _ & _ & Hs & He & Ht & _).
    rewrite Hs, He, Ht in Hkept. destruct Hkept as (K1 & K2 & K3).
    destruct rounds as [[[]|[msg|msg]] w1]; cbn [fst snd caught] in *.
    - pose proof (background_complete_spec task_status w1) as (H1 & H2 & H3 & H4 & _).
      destruct (background_complete task_status w1) as [o w2].
      simpl in *. by rewrite release_slot_tasks.
    - pose proof (background_except_spec task_status msg w1)
        as (H1 & H2 & H3 & H4 & _).
      destruct (background_except task_status msg w1) as [o w2].
      simpl in *. by rewrite release_slot_tasks.
    - simpl. by rewrite release_slot_tasks. }
  split; [|split; [|split; [|split]]].
  - intros Hr. by rewrite Hr in Hshape.
  - intros msg Hr. by rewrite Hr in Hshape.
  - intros msg Hr. by rewrite Hr in Hshape.
  - intros Hcur. rewrite Hslot, Hcur. by rewrite decide_True.
  - done.
Qed.

Lemma background_unit_terminal_state_witness :
  let w :=
    with_exec (λ _, (execute_crawl_task Sample.uuid Sample.request Sample.executor).2)
      Sample.world in
  (let result := _run_task_background Sample.environment Sample.request 0 w in
   status (tasks (exec result.2) 0) = completed ∧
   _current_task (exec result.2) = None) ∧
  (let result := _run_task_background Sample.environment_cancelled Sample.request 0 w in
   result.1 = Raise (BaseException "") ∧
   status (tasks (exec result.2) 0) = running).
Proof.
  split.
  - destruct (background_unit_terminal_state Sample.environment Sample.request 0
                (with_exec (λ _, (execute_crawl_task Sample.uuid Sample.request
                                    Sample.executor).2) Sample.world))
      as (Hdone & _ & _ & Hslot & _).
    split.
    + apply Hdone. vm_compute. reflexivity.
    + apply Hslot. reflexivity.
  - destruct (background_unit_terminal_state Sample.environment_cancelled
                Sample.request 0
                (with_exec (λ _, (execute_crawl_task Sample.uuid Sample.request
                                    Sample.executor).2) Sample.world))
      as (_ & _ & Hcancel & _).
    destruct (Hcancel "") as (H1 & H2 & _); [vm_compute; reflexivity|].
    split; [exact H1 | exact H2].
Defined.

(** ** A platform whose Crawler returns is saved *)

Lemma batch_saved_app platform l1 l2 :
  batch_saved platform (l1 ++ l2)
    = batch_saved platform l1 || batch_saved platform l2.
Proof. apply existsb_app. Qed.

(** A [save_batch] that no cancelled call interrupts returns, and reports
    the batch. *)
Lemma save_batch_reported platform posts_data cd metadata clk db :
  (∀ n, escapes (server_raises db n) = false) →
  (∃ saved, (save_batch platform posts_data cd metadata clk db).1.1.1 = Ok saved) ∧
  batch_saved platform (save_batch platform posts_data cd metadata clk db).2 = true.
Proof.
  intros Hdb.
  pose proof (save_batch_raises platform posts_data cd metadata clk db) as Hr.
  unfold save_batch in *.
  destruct (save_batch_loop _ _ _ _ _ _ _ _) as [[[[n|e] clk'] db'] evs];
    cbn [fst snd] in *.
  - split; [eauto|]. rewrite batch_saved_app. simpl.
    rewrite bool_decide_eq_true_2 by done. apply orb_true_r.
  - destruct (Hr e eq_refl) as (k & Hk & Hc).
    apply caught_escapes in Hc. rewrite <- Hk in Hc. by rewrite Hdb in Hc.
Qed.

#[local] Instance batch_stays_refl platform : Reflexive (batch_stays platform).
Proof. intros w H. exact H. Qed.

#[local] Instance batch_stays_trans platform : Transitive (batch_stays platform).
Proof. unfold batch_stays. intros w1 w2 w3 H1 H2 H. auto. Qed.

#[local] Hint Extern 0 (Reflexive (batch_stays _)) => apply batch_stays_refl : preserves.
#[local] Hint Extern 0 (Transitive (batch_stays _)) => apply batch_stays_trans : preserves.

Lemma batch_stays_steps platform :
  (∀ events, preserves (batch_stays platform) (emit events)) ∧
  (∀ p, preserves (batch_stays platform) (do_create_indexes p)) ∧
  (∀ E, preserves (batch_stays platform) (sleep_between_platforms E)) ∧
  (∀ tokens, preserves (batch_stays platform) (do_restore tokens)).
Proof.
  repeat split; intros; intros w;
    rewrite ?do_create_indexes_run, ?do_restore_run;
    unfold batch_stays, sleep_between_platforms;
    repeat case_match; simpl; try done;
    rewrite batch_saved_app; by intros ->.
Qed.

Lemma after_capture_batch_saved E request r i kg p result w :
  uninterrupted w →
  success result = true →
  batch_saved p (log (after_capture E request r i kg p result w).2) = true.
Proof.
  intros Hw Hs. destruct (batch_stays_steps p) as (Hemit & Hidx & Hsleep & _).
  unfold after_capture. rewrite Hs. rewrite bind_run.
  rewrite bind_run. unfold read_task at 1. step.
  unfold now, datetime_now. step. rewrite do_save_batch_run. cbv zeta.
  match goal with |- context [save_batch ?a ?b ?c ?d ?e ?f] =>
    destruct (save_batch_reported a b c d e f) as [[saved Hok] Hrep]; [exact Hw|];
    destruct (save_batch a b c d e f) as [[[o clk'] d'] evs]
  end.
  cbn [fst snd] in Hok, Hrep. subst o. cbn [fst snd]. cbv beta iota.
  unfold emit at 1. cbv beta iota.
  match goal with |- context [(do_create_indexes p ≫= ?k) ?w1] =>
    assert (Hrest : preserves (batch_stays p) (do_create_indexes p ≫= k))
      by eauto 10 with preserves;
    apply (Hrest w1)
  end.
  simpl. rewrite !batch_saved_app, Hrep. by rewrite orb_true_r.
Qed.

(** The step of a platform whose Crawler neither fails to be created nor
    raises in [start()] runs [save_batch] for it, in whatever state the
    earlier platforms left the world. *)
Lemma platform_step_batch_saved E request r i kg p w :
  uninterrupted w →
  crawler_exception
    (crawler E (crawls w) (inject_config p kg (request_config request) (cfg w)).2)
    = None →
  batch_saved p (log (platform_step E request r i kg p w).2) = true.
Proof.
  intros Hw Hrun. destruct (batch_stays_steps p) as (Hemit & _ & _ & Hrestore).
  unfold platform_step. rewrite bind_run. unfold update_task at 1. step.
  unfold emit at 1. step. unfold try_except, platform_try.
  rewrite bind_run. unfold do_inject.
  change (cfg (with_log _ (with_exec _ w))) with (cfg w).
  pose proof (restore_after_inject p kg (request_config request) (cfg w)) as Hret.
  destruct (inject_config p kg (request_config request) (cfg w)) as [tokens opened].
  destruct Hret as (Hret & _).
  cbn [snd] in Hrun. step. unfold make_wrapper. step.
  rewrite do_run_with_capture_run. cbv zeta.
  cbv [with_cfg]. cbn [cfg TaskExecutor.stores crawls].
  match goal with |- context [run_with_capture ?run ?self ?st] =>
    destruct (run_with_capture_success run self st Hrun) as (result & Hres & Hs);
    destruct (run_with_capture run self st) as [[[o self'] stores'] evs]
  end.
  cbn [fst snd] in Hres. subst o. cbn [fst snd]. step.
  rewrite do_restore_run. cbn [cfg].
  destruct (restore_config tokens opened) as [o closed].
  cbn [fst] in Hret. subst o. cbn [fst snd]. step.
  match goal with |- context [after_capture E request r i kg p result ?w1] =>
    pose proof (after_capture_batch_saved E request r i kg p result w1 Hw Hs)
      as Hsaved;
    destruct (after_capture E request r i kg p result w1) as [[[]|e] w2]
  end; cbn [fst snd] in *; [done|].
  destruct (caught e) as [msg|]; [|done].
  assert (Hh : preserves (batch_stays p) (platform_except p msg)).
  { unfold platform_except. eauto 10 with preserves. }
  by apply (Hh w2).
Qed.

(** ** A Crawler that raises what no handler catches *)

Lemma run_with_capture_escape_log run self stores msg :
  crawler_exception run = Some (BaseException msg) →
  (run_with_capture run self stores).2 = [].
Proof.
  unfold crawler_exception, run_with_capture, run_with_capture_try.
  destruct (create_raises run) as [e|]; [by intros [= ->]|].
  intros ->. by destruct (_setup_data_capture self stores).
Qed.

(** The step of a platform whose Crawler raises an exception that does not
    derive from [Exception] raises it: neither the handler of
    [run_with_capture] nor the one of the step catches it.  Nothing is saved,
    and the configuration stays as [inject_config] left it. *)
Lemma platform_step_escape E request r i kg p w msg :
  crawler_exception
    (crawler E (crawls w) (inject_config p kg (request_config request) (cfg w)).2)
    = Some (BaseException msg) →
  (platform_step E request r i kg p w).1 = Raise (BaseException msg) ∧
  log (platform_step E request r i kg p w).2 = log w ++ [LogProcessing p] ∧
  cfg (platform_step E request r i kg p w).2
    = (inject_config p kg (request_config request) (cfg w)).2 ∧
  db (platform_step E request r i kg p w).2 = db w.
Proof.
  intros Hrun.
  destruct (platform_step E request r i kg p w) as [o0 w0] eqn:Hstep.
  cbn [fst snd]. revert Hstep.
  unfold platform_step. rewrite bind_run. unfold update_task at 1. step.
  unfold emit at 1. step. unfold try_except, platform_try.
  rewrite bind_run. unfold do_inject.
  change (cfg (with_log _ (with_exec _ w))) with (cfg w).
  destruct (inject_config p kg (request_config request) (cfg w)) as [tokens opened].
  cbn [snd] in Hrun. cbn [snd]. step. unfold make_wrapper. step.
  rewrite do_run_with_capture_run. cbv zeta.
  cbv [with_cfg]. cbn [cfg TaskExecutor.stores crawls].
  match goal with |- context [run_with_capture ?run ?self ?st] =>
    pose proof (run_with_capture_escape run self st msg Hrun) as Hout;
    pose proof (run_with_capture_escape_log run self st msg Hrun) as Hlog;
    destruct (run_with_capture run self st) as [[[o self'] stores'] evs]
  end.
  cbn [fst snd] in Hout, Hlog. subst o evs. cbn [fst snd caught]. step.
  cbn [fst snd caught]. intros [= <- <-]. simpl. by rewrite app_nil_r.
Qed.

Lemma platforms_loop_escape E request r i kg p rest w msg :
  crawler_exception
    (crawler E (crawls w) (inject_config p kg (request_config request) (cfg w)).2)
    = Some (BaseException msg) →
  (platforms_loop E request r i kg (p :: rest) w).1 = Raise (BaseException msg) ∧
  log (platforms_loop E request r i kg (p :: rest) w).2 = log w ++ [LogProcessing p] ∧
  db (platforms_loop E request r i kg (p :: rest) w).2 = db w.
Proof.
  intros Hrun. simpl. rewrite bind_run.
  destruct (platform_step_escape E request r i kg p w msg Hrun)
    as (Hout & Hlog & _ & Hdb).
  destruct (platform_step E request r i kg p w) as [o w'].
  cbn [fst snd] in *. by subst o.
Qed.

Lemma rounds_loop_escape E request r i kg groups p rest w msg :
  platforms request = p :: rest →
  crawler_exception
    (crawler E (crawls w) (inject_config p kg (request_config request) (cfg w)).2)
    = Some (BaseException msg) →
  (rounds_loop E request r i (kg :: groups) w).1 = Raise (BaseException msg) ∧
  processed (log (rounds_loop E request r i (kg :: groups) w).2)
    = processed (log w) ++ [p] ∧
  (∀ q, batch_saved q (log (rounds_loop E request r i (kg :: groups) w).2)
        = batch_saved q (log w)) ∧
  db (rounds_loop E request r i (kg :: groups) w).2 = db w.
Proof.
  intros Hp Hrun.
  destruct (rounds_loop E request r i (kg :: groups) w) as [o0 w0] eqn:Hloop.
  cbn [fst snd]. revert Hloop. simpl. rewrite bind_run.
  unfold round_step. rewrite bind_run. unfold update_task at 1. step.
  unfold read_task at 1. step. unfold emit at 1. step. rewrite Hp.
  match goal with |- context [platforms_loop E request r i kg (p :: rest) ?w1] =>
    destruct (platforms_loop_escape E request r i kg p rest w1 msg Hrun)
      as (Hout & Hlog & Hdb);
    destruct (platforms_loop E request r i kg (p :: rest) w1) as [o w2]
  end.
  cbn [fst snd] in *. subst o. cbn [fst snd]. intros [= <- <-].
  rewrite Hlog, Hdb. simpl.
  split; [done|]. split; [|split; [|done]].
  - rewrite !processed_app. simpl. by rewrite app_nil_r.
  - intros q. rewrite !batch_saved_app. simpl. by rewrite !orb_false_r.
Qed.

(** What the unit does with an exception the handler of line 369 does not
    catch: the [finally] block, and nothing else. *)
Lemma background_unit_escape E request r w msg :
  let rounds :=
    rounds_loop E request r 1 (keyword_groups request) (background_start r w).2 in
  rounds.1 = Raise (BaseException msg) →
  _run_task_background E request r w
    = (Raise (BaseException msg), with_exec (release_slot r) rounds.2).
Proof.
  intros rounds Hr. unfold _run_task_background, try_finally.
  rewrite background_body_run. fold rounds.
  destruct rounds as [o w1]. cbn [fst snd] in *. by subst o.
Qed.

(** A background unit whose first Crawler raises an exception that does not
    derive from [Exception]: the unit raises it after that one platform,
    nothing is saved, and the task is left [running]. *)
Lemma run_task_background_escape E request r w kg groups p rest msg :
  keyword_groups request = kg :: groups →
  platforms request = p :: rest →
  crawler_exception
    (crawler E (crawls w) (inject_config p kg (request_config request) (cfg w)).2)
    = Some (BaseException msg) →
  let result := _run_task_background E request r w in
  result.1 = Raise (BaseException msg) ∧
  processed (log result.2) = processed (log w) ++ [p] ∧
  (∀ q, batch_saved q (log result.2) = batch_saved q (log w)) ∧
  collections (db result.2) = collections (db w) ∧
  status (tasks (exec result.2) r) = running.
Proof.
  intros Hkg Hp Hrun result.
  destruct (background_start_spec r w)
    as (_ & Hlog0 & Hcfg0 & Hcrawls0 & Hdb0 & Hs0 & _).
  cbv zeta in Hlog0, Hcfg0, Hcrawls0, Hdb0, Hs0.
  pose proof (rounds_loop_escape E request r 1 kg groups p rest
                (background_start r w).2 msg Hp) as Hloop.
  rewrite Hcfg0, Hcrawls0, Hlog0, Hdb0 in Hloop.
  destruct (Hloop Hrun) as (Hout & Hproc & Hsaved & Hdb).
  pose proof (rounds_loop_terminal_fields E request r 1 (kg :: groups)
                (background_start r w).2) as (Hstatus & _).
  cbv zeta in Hstatus. rewrite Hs0 in Hstatus. rewrite <- Hkg in *.
  unfold result. rewrite (background_unit_escape E request r w msg) by done.
  cbn [fst snd]. unfold with_exec. cbn [log db exec].
  rewrite release_slot_tasks, Hdb. done.
Qed.

(** ** Containment of a platform's failure *)



